(** * android_world.env: the action model and the asynchronous environment

    A shallow embedding of [android_world/env/json_action.py] and
    [android_world/env/interface.py], followed by the properties of the
    specification settled against it.

    Python values are modelled as follows: [str] as [string], a character
    standing for the code point of its number, so the strings of the model
    are those of code points up to U+00FF (on which [str.lower] maps
    character by character); [int] as [Z],
    [float] as the kernel's binary64 [float], [Optional[T]] as [option T],
    exceptions as the [Raise] outcome of a small state-and-exception monad. *)

From Stdlib Require Import ZArith List String Ascii Bool Lia PrimFloat DecimalString
  DecimalZ DecimalPos FloatAxioms FloatOps SpecFloat.
Import ListNotations.
Open Scope string_scope.

(* ================================================================== *)
(** ** Python preliminaries *)

Module Py.

Inductive exn : Type :=
| AttributeError (attribute : string)
| ValueError (message : string)
| OverflowError (message : string).

(** What running a piece of code yields: a value, a raised exception, or
    [OutOfFuel] when a [while] loop was cut by the model's step budget. *)
Inductive outcome (A : Type) : Type :=
| Ok (a : A)
| Raise (e : exn)
| OutOfFuel.
Arguments Ok {A} a.
Arguments Raise {A} e.
Arguments OutOfFuel {A}.

Definition obind {A B} (m : outcome A) (k : A -> outcome B) : outcome B :=
  match m with
  | Ok a => k a
  | Raise e => Raise e
  | OutOfFuel => OutOfFuel
  end.

(** The values an attribute of a [JSONAction] holds. *)
Inductive value : Type :=
| VNone
| VStr (s : string)
| VInt (z : Z).

(** [==] on such values: values of different types are unequal. *)
Definition value_eqb (v w : value) : bool :=
  match v, w with
  | VNone, VNone => true
  | VStr s, VStr t => String.eqb s t
  | VInt m, VInt n => Z.eqb m n
  | _, _ => false
  end.

Definition is_not_None (v : value) : bool :=
  match v with VNone => false | _ => true end.

(** [==] on [Optional[T]], given [==] on [T]. *)
Definition opt_eqb {A} (eqb : A -> A -> bool) (o p : option A) : bool :=
  match o, p with
  | None, None => true
  | Some a, Some b => eqb a b
  | _, _ => false
  end.

(** [str.lower] on one code point up to U+00FF: the letters ['A'] to ['Z']
    and the capitals U+00C0 to U+00DE go 32 up, the multiplication sign
    U+00D7 among them apart; nothing else changes. *)
Definition lower_char (c : ascii) : ascii :=
  let n := nat_of_ascii c in
  if ((65 <=? n)%nat && (n <=? 90)%nat)
     || ((192 <=? n)%nat && (n <=? 222)%nat && negb (n =? 215)%nat)
  then ascii_of_nat (n + 32) else c.

Fixpoint lower (s : string) : string :=
  match s with
  | EmptyString => EmptyString
  | String c r => String (lower_char c) (lower r)
  end.

(** [x and y] where [x] is already a [bool] and [y] is still to be
    evaluated: [y] runs only when [x] is true. *)
Definition and_then (x : bool) (y : outcome bool) : outcome bool :=
  if x then y else Ok false.

End Py.
Import Py.

(* ================================================================== *)
(** ** json_action.py *)

Module json_action.

Definition ANSWER := "answer".
Definition CLICK := "click".
Definition DOUBLE_TAP := "double_tap".
Definition INPUT_TEXT := "input_text".
Definition KEYBOARD_ENTER := "keyboard_enter".
Definition LONG_PRESS := "long_press".
Definition NAVIGATE_BACK := "navigate_back".
Definition NAVIGATE_HOME := "navigate_home".
Definition OPEN_APP := "open_app".
Definition SCROLL := "scroll".
Definition STATUS := "status".
Definition SWIPE := "swipe".
Definition UNKNOWN := "unknown".
Definition WAIT := "wait".

Definition _ACTION_TYPES : list string :=
  [ CLICK; DOUBLE_TAP; SCROLL; SWIPE; INPUT_TEXT; NAVIGATE_HOME;
    NAVIGATE_BACK; KEYBOARD_ENTER; OPEN_APP; STATUS; WAIT; LONG_PRESS;
    ANSWER; UNKNOWN ].

Definition _SCROLL_DIRECTIONS : list string := [ "left"; "right"; "down"; "up" ].

(** [kind in _ACTION_TYPES]. *)
Definition is_action_type (kind : option string) : bool :=
  match kind with
  | Some k => existsb (String.eqb k) _ACTION_TYPES
  | None => false
  end.

(** [Optional[str | int]]. *)
Inductive str_or_int : Type :=
| IsInt (z : Z)
| IsStr (s : string).

Definition str_or_int_eqb (i j : str_or_int) : bool :=
  match i, j with
  | IsInt m, IsInt n => Z.eqb m n
  | IsStr s, IsStr t => String.eqb s t
  | _, _ => false
  end.

(** The dataclass: nine fields, each defaulting to [None]. *)
Record JSONAction : Type := mkJSONAction {
  action_type : option string;
  index : option str_or_int;
  x : option Z;
  y : option Z;
  text : option string;
  direction : option string;
  goal_status : option string;
  app_name : option string;
  activity_nickname : option string;
}.

(** The [__init__] the [dataclass] decorator generates. The class has no
    [__post_init__]: the arguments are stored as they come. *)
Definition __init__ (action_type : option string) (index : option str_or_int)
    (x y : option Z) (text direction goal_status app_name
    activity_nickname : option string) : outcome JSONAction :=
  Ok (mkJSONAction action_type index x y text direction goal_status
        app_name activity_nickname).

(** [JSONAction()]: every field left at its default. *)
Definition default : JSONAction :=
  mkJSONAction None None None None None None None None None.

Definition of_str (o : option string) : value :=
  match o with Some s => VStr s | None => VNone end.
Definition of_int (o : option Z) : value :=
  match o with Some z => VInt z | None => VNone end.
Definition of_str_or_int (o : option str_or_int) : value :=
  match o with Some (IsInt z) => VInt z | Some (IsStr s) => VStr s | None => VNone end.

(** [self.__dict__.items()]: the instance attributes, in declaration order. *)
Definition __dict__ (a : JSONAction) : list (string * value) :=
  [ ("action_type", of_str (action_type a));
    ("index", of_str_or_int (index a));
    ("x", of_int (x a));
    ("y", of_int (y a));
    ("text", of_str (text a));
    ("direction", of_str (direction a));
    ("goal_status", of_str (goal_status a));
    ("app_name", of_str (app_name a));
    ("activity_nickname", of_str (activity_nickname a)) ].

(** Attribute lookup [a.name]: the instance dictionary holds every data
    attribute (the class itself adds only the field defaults, under the
    same names, and methods); any other name raises [AttributeError]. *)
Definition getattr (a : JSONAction) (name : string) : outcome value :=
  match find (fun kv => String.eqb (fst kv) name) (__dict__ a) with
  | Some kv => Ok (snd kv)
  | None => Raise (AttributeError name)
  end.

(** Python's short-circuit conjunction, for the chain below. *)
Local Notation "x 'and' y" := (and_then x y)
  (at level 61, right associativity, only parsing).

(** [_compare_actions(a, b)]. The last conjunct reads [a.orientation]. *)
Definition _compare_actions (a b : JSONAction) : outcome bool :=
  (* Ignore cases. *)
  let app_name_match :=
    match app_name a, app_name b with
    | Some an, Some bn => String.eqb (lower an) (lower bn)
    | _, _ => opt_eqb String.eqb (app_name a) (app_name b)
    end in
  let text_match :=
    match text a, text b with
    | Some at_, Some bt => String.eqb (lower at_) (lower bt)
    | _, _ => opt_eqb String.eqb (text a) (text b)
    end in
  (* Compare the non-metadata fields. *)
  app_name_match
  and text_match
  and opt_eqb String.eqb (action_type a) (action_type b)
  and opt_eqb str_or_int_eqb (index a) (index b)
  and opt_eqb Z.eqb (x a) (x b)
  and opt_eqb Z.eqb (y a) (y b)
  and opt_eqb String.eqb (direction a) (direction b)
  and opt_eqb String.eqb (goal_status a) (goal_status b)
  and obind (getattr a "orientation") (fun ao =>
      obind (getattr b "orientation") (fun bo =>
      Ok (value_eqb ao bo))).

(** The right operand of [==]: another action or any other object. *)
Inductive object : Type :=
| Action (b : JSONAction)
| Other (v : value).

Definition __eq__ (self : JSONAction) (other : object) : outcome bool :=
  match other with
  | Action b => _compare_actions self b
  | Other _ => Ok false
  end.

Definition __ne__ (self : JSONAction) (other : object) : outcome bool :=
  obind (__eq__ self other) (fun r => Ok (negb r)).

(** *** [json.dumps] with [separators=(',', ':')] on a flat dictionary *)

Definition dquote : ascii := ascii_of_nat 34.
Definition backslash : ascii := ascii_of_nat 92.

Definition hex_digit (n : nat) : ascii :=
  if (n <? 10)%nat then ascii_of_nat (48 + n) else ascii_of_nat (87 + n).

(** One character under [ensure_ascii], for a code point up to U+00FF:
    the quote, the backslash and the short escapes, [\u00xx] for anything
    else outside [' '..'~']. *)
Definition encode_char (c : ascii) : string :=
  let n := nat_of_ascii c in
  let esc (l : string) := String backslash l in
  if (n =? 34)%nat then esc (String dquote EmptyString)
  else if (n =? 92)%nat then esc (String backslash EmptyString)
  else if (n =? 10)%nat then esc "n"
  else if (n =? 13)%nat then esc "r"
  else if (n =? 9)%nat then esc "t"
  else if (n =? 8)%nat then esc "b"
  else if (n =? 12)%nat then esc "f"
  else if (32 <=? n)%nat && (n <=? 126)%nat then String c EmptyString
  else esc (String "u" (String "0" (String "0"
         (String (hex_digit (n / 16)) (String (hex_digit (n mod 16)) EmptyString))))).

Fixpoint encode_chars (s : string) : string :=
  match s with
  | EmptyString => EmptyString
  | String c r => encode_char c ++ encode_chars r
  end.

Definition encode_str (s : string) : string :=
  String dquote (encode_chars s ++ String dquote EmptyString).

(** The decimal digits of an integer. *)
Definition decimal (z : Z) : string := NilZero.string_of_int (Z.to_int z).

(** [sys.get_int_max_str_digits()], at its default. *)
Definition max_str_digits : Z := 4300.

Definition digit_limit_message : string :=
  "Exceeds the limit (4300 digits) for integer string conversion; use sys.set_int_max_str_digits() to increase the limit".

(** [repr] of an [int], as the encoder calls it: the decimal digits, and
    [ValueError] for an integer of more digits than the limit. *)
Definition encode_int (z : Z) : outcome string :=
  if (Z.abs z <? 10 ^ max_str_digits)%Z then Ok (decimal z)
  else Raise (ValueError digit_limit_message).

Definition encode_value (v : value) : outcome string :=
  match v with
  | VNone => Ok "null"
  | VStr s => Ok (encode_str s)
  | VInt z => encode_int z
  end.

Definition encode_item (kv : string * value) : outcome string :=
  obind (encode_value (snd kv)) (fun v => Ok (encode_str (fst kv) ++ ":" ++ v)).

(** The items in order; the first value that cannot be encoded raises. *)
Fixpoint encode_items (d : list (string * value)) : outcome (list string) :=
  match d with
  | [] => Ok []
  | kv :: d' =>
      obind (encode_item kv) (fun i =>
      obind (encode_items d') (fun r => Ok (i :: r)))
  end.

Definition json_dumps (d : list (string * value)) : outcome string :=
  obind (encode_items d) (fun items => Ok ("{" ++ String.concat "," items ++ "}")).

(** [JSONAction.json_str]. *)
Definition json_str (self : JSONAction) : outcome string :=
  let non_null := filter (fun kv => is_not_None (snd kv)) (__dict__ self) in
  json_dumps non_null.

End json_action.

(* ================================================================== *)
(** ** interface.py *)

Module interface.
Import json_action.

(** [android_env.components.action_type.ActionType]. *)
Inductive ActionType : Type := TOUCH | LIFT | REPEAT | KEYDOWN | KEYUP | KEYPRESS.

(** The dictionary [base_env.step] takes. *)
Record EnvAction : Type := mkEnvAction {
  env_action_type : ActionType;
  touch_position : float * float;
}.

Definition _get_no_op_action : EnvAction := mkEnvAction LIFT (0%float, 0%float).

Section AsyncAndroidEnv.

(** [representation_utils.UIElement], the screen buffer and the raw UI
    forest come from other modules; so does [==] on UI elements. *)
Variables UIElement Pixels Forest : Type.
Variable UIElement_eqb : UIElement -> UIElement -> bool.

(** [==] on [list[UIElement]]: same length, equal element by element. *)
Fixpoint elements_eqb (l m : list UIElement) : bool :=
  match l, m with
  | [], [] => true
  | a :: l', b :: m' => UIElement_eqb a b && elements_eqb l' m'
  | _, _ => false
  end.

Record State : Type := mkState {
  pixels : Pixels;
  forest : Forest;
  ui_elements : list UIElement;
}.

(** The observation of a [dm_env.TimeStep], by key. *)
Record TimeStep : Type := mkTimeStep {
  observation_pixels : Pixels;
  observation_forest : Forest;
  observation_ui_elements : list UIElement;
}.

Definition _process_timestep (timestep : TimeStep) : State :=
  mkState (observation_pixels timestep) (observation_forest timestep)
          (observation_ui_elements timestep).

(** The collaborators: the wrapped device ([base_env.reset],
    [base_env.step]), [adb_utils], [actuation] and [time.sleep]. Each
    device call takes the device to its next state; [sleep_check] is the
    argument check of [time.sleep] ([None] when it accepts a duration). *)
Variable BaseEnv : Type.
Variable env_reset : BaseEnv -> TimeStep * BaseEnv.
Variable env_step : EnvAction -> BaseEnv -> TimeStep * BaseEnv.
Variable press_home_button : BaseEnv -> BaseEnv.
Variable send_android_intent :
  string -> string -> list (string * string) -> BaseEnv -> BaseEnv.
Variable get_logical_screen_size : BaseEnv -> (Z * Z) * BaseEnv.
Variable execute_adb_action :
  JSONAction -> list UIElement -> Z * Z -> BaseEnv -> BaseEnv.
Variable sleep_check : float -> option exn.

(** The calls made to the collaborators, in order (a ghost trace). *)
Inductive Event : Type :=
| PressHome
| EnvReset
| EnvStep (action : EnvAction) (observed : State)
| Sleep (secs : float)
| SendIntent (command action : string) (extras : list (string * string))
| LogicalScreenSize
| ExecuteAdbAction (action : JSONAction) (elements : list UIElement)
                   (screen_size : Z * Z).

(** An [AsyncAndroidEnv] instance, with the trace of its calls. *)
Record Self : Type := mkSelf {
  _base_env : BaseEnv;
  _prior_state : option State;
  interaction_cache : option string;
  trace : list Event;
}.

(** [AsyncAndroidEnv.__init__]. *)
Definition init (base_env : BaseEnv) : Self :=
  mkSelf base_env None (Some "") [].

(** *** The monad of methods: state, exceptions and fuel *)

Definition M (A : Type) : Type := Self -> outcome A * Self.

Definition ret {A} (a : A) : M A := fun self => (Ok a, self).

Definition bind {A B} (m : M A) (k : A -> M B) : M B :=
  fun self =>
    match m self with
    | (Ok a, self') => k a self'
    | (Raise e, self') => (Raise e, self')
    | (OutOfFuel, self') => (OutOfFuel, self')
    end.

Definition raise {A} (e : exn) : M A := fun self => (Raise e, self).
Definition out_of_fuel {A} : M A := fun self => (OutOfFuel, self).

Local Notation "x <- m ;; k" := (bind m (fun x => k))
  (at level 100, m at next level, right associativity).
Local Notation "m ;; k" := (bind m (fun _ => k))
  (at level 100, right associativity).

Definition log (e : Event) (self : Self) : Self :=
  mkSelf (_base_env self) (_prior_state self) (interaction_cache self)
         (trace self ++ [e]).

Definition with_env (env : BaseEnv) (self : Self) : Self :=
  mkSelf env (_prior_state self) (interaction_cache self) (trace self).

Definition set_prior_state (s : State) : M unit := fun self =>
  (Ok tt, mkSelf (_base_env self) (Some s) (interaction_cache self) (trace self)).

Definition set_interaction_cache (c : option string) : M unit := fun self =>
  (Ok tt, mkSelf (_base_env self) (_prior_state self) c (trace self)).

(** A call that only acts on the device. *)
Definition call (f : BaseEnv -> BaseEnv) (e : Event) : M unit := fun self =>
  (Ok tt, log e (with_env (f (_base_env self)) self)).

(** [time.sleep(secs)]. *)
Definition time_sleep (secs : float) : M unit :=
  match sleep_check secs with
  | Some e => raise e
  | None => fun self => (Ok tt, log (Sleep secs) self)
  end.

(** *** The methods *)

Definition display_message (message header : string) : M unit :=
  let extras := [("task_type_string", header); ("goal_string", message)] in
  call (send_android_intent "broadcast" "com.example.ACTION_UPDATE_OVERLAY" extras)
       (SendIntent "broadcast" "com.example.ACTION_UPDATE_OVERLAY" extras).

Definition logical_screen_size : M (Z * Z) := fun self =>
  let (size, env) := get_logical_screen_size (_base_env self) in
  (Ok size, log LogicalScreenSize (with_env env self)).

Definition reset (go_home : bool) : M State :=
  (if go_home then call press_home_button PressHome else ret tt) ;;
  set_interaction_cache (Some "") ;;
  fun self =>
    let (timestep, env) := env_reset (_base_env self) in
    (Ok (_process_timestep timestep), log EnvReset (with_env env self)).

Definition _get_state : M State := fun self =>
  let (timestep, env) := env_step _get_no_op_action (_base_env self) in
  let state := _process_timestep timestep in
  (Ok state, log (EnvStep _get_no_op_action state) (with_env env self)).

(** [self._prior_state.ui_elements]. *)
Definition prior_ui_elements : M (list UIElement) := fun self =>
  match _prior_state self with
  | Some prior => (Ok (ui_elements prior), self)
  | None => (Raise (AttributeError "ui_elements"), self)
  end.

(** The [while] loop of [_get_stable_state]; one unit of fuel per test
    of the loop condition. *)
Fixpoint while_unstable (fuel : nat) (stability_threshold : Z)
    (sleep_duration timeout : float) (stable_checks : Z)
    (elapsed_time : float) (current_state : State) {struct fuel} : M State :=
  match fuel with
  | O => out_of_fuel
  | S fuel' =>
    if (stable_checks <? stability_threshold)%Z
       && (elapsed_time <? timeout)%float
    then
      let next (stable_checks : Z) : M State :=
        time_sleep sleep_duration ;;
        let elapsed_time := (elapsed_time + sleep_duration)%float in
        current_state <- _get_state ;;
        while_unstable fuel' stability_threshold sleep_duration timeout
                       stable_checks elapsed_time current_state in
      prior <- prior_ui_elements ;;
      if elements_eqb prior (ui_elements current_state) then
        let stable_checks := (stable_checks + 1)%Z in
        if (stable_checks =? stability_threshold)%Z
        then ret current_state  (* Exit early if stability is achieved. *)
        else next stable_checks
      else
        (* Reset if any change is detected *)
        set_prior_state current_state ;;
        next 0%Z
    else ret current_state
  end.

Definition _get_stable_state (fuel : nat) (stability_threshold : Z)
    (sleep_duration timeout : float) : M State :=
  (fun self =>
     match _prior_state self with
     | None => (prior <- _get_state ;; set_prior_state prior) self
     | Some _ => (Ok tt, self)
     end) ;;
  current_state <- _get_state ;;
  while_unstable fuel stability_threshold sleep_duration timeout
                 0%Z 0%float current_state.

(** [get_state]; the stabilising call runs with the defaults
    [stability_threshold=3], [sleep_duration=0.5], [timeout=6.0]. *)
Definition get_state (fuel : nat) (wait_to_stabilize : bool) : M State :=
  if wait_to_stabilize
  then _get_stable_state fuel 3%Z 0.5%float 6%float
  else _get_state.

Definition execute_action (action : JSONAction) : M unit :=
  if opt_eqb String.eqb (action_type action) (Some ANSWER) then
    set_interaction_cache (text action) ;;
    (* [if action.text:] -- [None] and [''] are falsy *)
    match text action with
    | Some (String _ _ as answer) => display_message answer "Agent answered:"
    | _ => ret tt
    end
  else
    state <- get_state 0 false ;;
    size <- logical_screen_size ;;
    call (execute_adb_action action (ui_elements state) size)
         (ExecuteAdbAction action (ui_elements state) size).

(** *** Reading the trace *)

(** The snapshots acquired through [base_env.step], oldest first. *)
Fixpoint acquired (t : list Event) : list State :=
  match t with
  | [] => []
  | EnvStep _ s :: t' => s :: acquired t'
  | _ :: t' => acquired t'
  end.

(** The durations slept, oldest first. *)
Fixpoint slept (t : list Event) : list float :=
  match t with
  | [] => []
  | Sleep d :: t' => d :: slept t'
  | _ :: t' => slept t'
  end.

(** The display notifications sent, as (header, message) pairs. *)
Fixpoint displayed (t : list Event) : list (list (string * string)) :=
  match t with
  | [] => []
  | SendIntent _ _ extras :: t' => extras :: displayed t'
  | _ :: t' => displayed t'
  end.

(** The actions handed to the actuation layer. *)
Fixpoint actuated (t : list Event) : list JSONAction :=
  match t with
  | [] => []
  | ExecuteAdbAction a _ _ :: t' => a :: actuated t'
  | _ :: t' => actuated t'
  end.

(** One round of the polling loop: a sleep, then a new snapshot. *)
Definition polls (sleep_duration : float) (states : list State) : list Event :=
  flat_map (fun s => [Sleep sleep_duration; EnvStep _get_no_op_action s]) states.

End AsyncAndroidEnv.

Arguments mkState {UIElement Pixels Forest} pixels forest ui_elements.
Arguments pixels {UIElement Pixels Forest} s.
Arguments forest {UIElement Pixels Forest} s.
Arguments ui_elements {UIElement Pixels Forest} s.
Arguments mkTimeStep {UIElement Pixels Forest}.
Arguments mkSelf {UIElement Pixels Forest BaseEnv}.
Arguments _base_env {UIElement Pixels Forest BaseEnv} s.
Arguments _prior_state {UIElement Pixels Forest BaseEnv} s.
Arguments interaction_cache {UIElement Pixels Forest BaseEnv} s.
Arguments trace {UIElement Pixels Forest BaseEnv} s.
Arguments PressHome {UIElement Pixels Forest}.
Arguments EnvReset {UIElement Pixels Forest}.
Arguments EnvStep {UIElement Pixels Forest} action observed.
Arguments Sleep {UIElement Pixels Forest} secs.
Arguments SendIntent {UIElement Pixels Forest} command action extras.
Arguments LogicalScreenSize {UIElement Pixels Forest}.
Arguments ExecuteAdbAction {UIElement Pixels Forest} action elements screen_size.
Arguments acquired {UIElement Pixels Forest} t.
Arguments slept {UIElement Pixels Forest} t.
Arguments displayed {UIElement Pixels Forest} t.
Arguments actuated {UIElement Pixels Forest} t.
Arguments polls {UIElement Pixels Forest} sleep_duration states.
Arguments init {UIElement Pixels Forest BaseEnv} base_env.
Arguments ret {UIElement Pixels Forest BaseEnv A} a.
Arguments bind {UIElement Pixels Forest BaseEnv A B} m k.
Arguments set_prior_state {UIElement Pixels Forest BaseEnv} s.

(** The value of [elapsed_time] after [n] rounds: [sleep_duration] added
    [n] times to [0.0], in binary64. *)
Fixpoint elapsed_after (n : nat) (sleep_duration : float) : float :=
  match n with
  | O => 0%float
  | S k => (elapsed_after k sleep_duration + sleep_duration)%float
  end.

End interface.

(* ================================================================== *)
(** ** A scripted device

    The device used to run the environment on concrete inputs: its [n]-th
    observation shows the UI elements [screen n] (elements are numbers,
    pixels and forest carry nothing). *)

Module Mock.
Import interface.

Record Device : Type := mkDevice {
  screen : nat -> list nat;
  cursor : nat;
}.

Definition observe (d : Device) : TimeStep nat unit unit * Device :=
  (mkTimeStep tt tt (screen d (cursor d)),
   mkDevice (screen d) (S (cursor d))).

Definition step (_ : EnvAction) (d : Device) := observe d.
Definition press_home (d : Device) : Device := d.
Definition send_intent (_ _ : string) (_ : list (string * string)) (d : Device) : Device := d.
Definition screen_size (d : Device) : (Z * Z) * Device := ((1080%Z, 2400%Z), d).
Definition actuate (_ : json_action.JSONAction) (_ : list nat) (_ : Z * Z)
  (d : Device) : Device := d.

(** The argument check of CPython's [time.sleep]: NaN is refused, then a
    duration whose nanosecond count does not fit 64 bits, then a negative
    one. *)
Definition sleep_check (secs : float) : option exn :=
  let ns := (secs * 1e9)%float in
  if is_nan secs then Some (ValueError "Invalid value NaN (not a number)")
  else if negb ((-0x1p63 <=? ns)%float && (ns <? 0x1p63)%float)
  then Some (OverflowError "timestamp too large to convert to C _PyTime_t")
  else if (secs <? 0)%float then Some (ValueError "sleep length must be non-negative")
  else None.

Definition MState : Type := State nat unit unit.
Definition MSelf : Type := Self nat unit unit Device.

(** The snapshot showing the elements [l]. *)
Definition showing (l : list nat) : MState := mkState tt tt l.

(** A fresh session on a device that follows [screen]. *)
Definition session (screen : nat -> list nat) : MSelf :=
  init (mkDevice screen 0).

Definition reset (go_home : bool) : MSelf -> outcome MState * MSelf :=
  interface.reset nat unit unit Device observe press_home go_home.

Definition _get_stable_state (fuel : nat) (stability_threshold : Z)
    (sleep_duration timeout : float) : MSelf -> outcome MState * MSelf :=
  interface._get_stable_state nat unit unit Nat.eqb Device step sleep_check
    fuel stability_threshold sleep_duration timeout.

Definition get_state (fuel : nat) (wait_to_stabilize : bool)
    : MSelf -> outcome MState * MSelf :=
  interface.get_state nat unit unit Nat.eqb Device step sleep_check
    fuel wait_to_stabilize.

Definition execute_action (action : json_action.JSONAction)
    : MSelf -> outcome unit * MSelf :=
  interface.execute_action nat unit unit Nat.eqb Device step send_intent
    screen_size actuate sleep_check action.

(** The script [l], followed by [after] for ever. *)
Definition script (l : list (list nat)) (after : list nat) : nat -> list nat :=
  fun n => nth n l after.

(** A screen that never shows the same elements twice. *)
Definition restless : nat -> list nat := fun n => [n].

(** 0.1 as a binary64 number. *)
Definition tenth : float := 0x1.999999999999ap-4%float.

End Mock.


(* ================================================================== *)
(** ** The specification's action equality, in its own words *)

Module Spec.
Import json_action.

(** How [app_name] and [text] match: case-insensitively when both sides are
    non-null, by null-equality otherwise. *)
Definition matches_ignoring_case (o p : option string) : Prop :=
  match o, p with
  | Some s, Some t => lower s = lower t
  | None, None => True
  | _, _ => False
  end.

(** Every field of the two actions matches. *)
Definition every_field_matches (a b : JSONAction) : Prop :=
  matches_ignoring_case (app_name a) (app_name b) /\
  matches_ignoring_case (text a) (text b) /\
  action_type a = action_type b /\
  index a = index b /\
  x a = x b /\
  y a = y b /\
  direction a = direction b /\
  goal_status a = goal_status b /\
  activity_nickname a = activity_nickname b.

(** The fields [_compare_actions] looks at before it reads [orientation]:
    all of them but [activity_nickname]. *)
Definition compared_fields_match (a b : JSONAction) : Prop :=
  matches_ignoring_case (app_name a) (app_name b) /\
  matches_ignoring_case (text a) (text b) /\
  action_type a = action_type b /\
  index a = index b /\
  x a = x b /\
  y a = y b /\
  direction a = direction b /\
  goal_status a = goal_status b.

Definition matches_ignoring_caseb (o p : option string) : bool :=
  match o, p with
  | Some s, Some t => String.eqb (lower s) (lower t)
  | None, None => true
  | _, _ => false
  end.

Definition compared_fields_matchb (a b : JSONAction) : bool :=
  matches_ignoring_caseb (app_name a) (app_name b)
  && matches_ignoring_caseb (text a) (text b)
  && opt_eqb String.eqb (action_type a) (action_type b)
  && opt_eqb str_or_int_eqb (index a) (index b)
  && opt_eqb Z.eqb (x a) (x b)
  && opt_eqb Z.eqb (y a) (y b)
  && opt_eqb String.eqb (direction a) (direction b)
  && opt_eqb String.eqb (goal_status a) (goal_status b).

(** [a] with its [activity_nickname] replaced. *)
Definition with_activity_nickname (n : option string) (a : JSONAction) : JSONAction :=
  mkJSONAction (action_type a) (index a) (x a) (y a) (text a) (direction a)
               (goal_status a) (app_name a) n.

(** [JSONAction(action_type='click', index=5)]. *)
Definition click_5 : JSONAction :=
  mkJSONAction (Some CLICK) (Some (IsInt 5)) None None None None None None None.

(** [JSONAction(action_type='open_app', app_name=name)]. *)
Definition open_app (name : option string) : JSONAction :=
  mkJSONAction (Some OPEN_APP) None None None None None None name None.

(** [JSONAction(action_type='input_text', text=t)]. *)
Definition input_text (t : option string) : JSONAction :=
  mkJSONAction (Some INPUT_TEXT) None None None t None None None None.

(** [JSONAction(action_type='answer', text=t)], the other fields free. *)
Definition answer (t : option string) (i : option str_or_int) (x y : option Z)
    (d g n k : option string) : JSONAction :=
  mkJSONAction (Some ANSWER) i x y t d g n k.

End Spec.

(* ================================================================== *)
(** ** Reading serialisations

    The character class of the wire format, and a reader that takes the
    output of [json_str] back to the action; the reader serves to show that
    the serialisation loses nothing. *)

Module Wire.
Import json_action.

(** The text of a value, of an item and of an object, for integers within
    the digit limit. *)
Definition value_text (v : value) : string :=
  match v with
  | VNone => "null"
  | VStr s => encode_str s
  | VInt z => decimal z
  end.

Definition item_text (kv : string * value) : string :=
  encode_str (fst kv) ++ ":" ++ value_text (snd kv).

Definition object_text (d : list (string * value)) : string :=
  "{" ++ String.concat "," (map item_text d) ++ "}".

(** An integer of no more digits than the limit; anything else passes. *)
Definition fits (v : value) : bool :=
  match v with
  | VInt z => (Z.abs z <? 10 ^ max_str_digits)%Z
  | _ => true
  end.

(** The integer fields of an action are within the digit limit. *)
Definition within_digit_limit (a : JSONAction) : bool :=
  forallb (fun kv => fits (snd kv)) (__dict__ a).

(** A character of the printable ASCII range, [' '] to ['~']. *)
Definition printable (c : ascii) : bool :=
  let n := nat_of_ascii c in (32 <=? n)%nat && (n <=? 126)%nat.

Fixpoint all_chars (p : ascii -> bool) (s : string) : bool :=
  match s with
  | EmptyString => true
  | String c r => p c && all_chars p r
  end.

(** Reading a serialisation back. *)

Definition hex_value (c : ascii) : option nat :=
  let n := nat_of_ascii c in
  if (48 <=? n)%nat && (n <=? 57)%nat then Some (n - 48)
  else if (97 <=? n)%nat && (n <=? 102)%nat then Some (n - 87)
  else None.

Definition unescape (c : ascii) : option ascii :=
  let n := nat_of_ascii c in
  if (n =? 34)%nat then Some c
  else if (n =? 92)%nat then Some c
  else if (n =? 110)%nat then Some (ascii_of_nat 10)
  else if (n =? 114)%nat then Some (ascii_of_nat 13)
  else if (n =? 116)%nat then Some (ascii_of_nat 9)
  else if (n =? 98)%nat then Some (ascii_of_nat 8)
  else if (n =? 102)%nat then Some (ascii_of_nat 12)
  else None.

Definition push (c : ascii) (r : option (string * string)) : option (string * string) :=
  match r with
  | Some (s, rest) => Some (String c s, rest)
  | None => None
  end.

(** The characters up to the closing quote, escapes undone, and what
    follows the quote. *)
Fixpoint read_chars (s : string) : option (string * string) :=
  match s with
  | EmptyString => None
  | String c r =>
    if Ascii.eqb c dquote then Some (EmptyString, r)
    else if Ascii.eqb c backslash then
      match r with
      | EmptyString => None
      | String e r' =>
        if Ascii.eqb e "u" then
          match r' with
          | String h1 (String h2 (String h3 (String h4 r''))) =>
            match hex_value h1, hex_value h2, hex_value h3, hex_value h4 with
            | Some 0, Some 0, Some a, Some b =>
                push (ascii_of_nat (16 * a + b)) (read_chars r'')
            | _, _, _, _ => None
            end
          | _ => None
          end
        else
          match unescape e with
          | Some c' => push c' (read_chars r')
          | None => None
          end
      end
    else push c (read_chars r)
  end.

Definition read_str (s : string) : option (string * string) :=
  match s with
  | String c r => if Ascii.eqb c dquote then read_chars r else None
  | EmptyString => None
  end.

Definition is_int_char (c : ascii) : bool :=
  let n := nat_of_ascii c in
  (n =? 45)%nat || ((48 <=? n)%nat && (n <=? 57)%nat).

Fixpoint span_int (s : string) : string * string :=
  match s with
  | EmptyString => (EmptyString, EmptyString)
  | String c r =>
    if is_int_char c
    then let (d, rest) := span_int r in (String c d, rest)
    else (EmptyString, s)
  end.

Definition read_value (s : string) : option (value * string) :=
  match s with
  | EmptyString => None
  | String c r =>
    if Ascii.eqb c dquote then
      match read_chars r with
      | Some (t, rest) => Some (VStr t, rest)
      | None => None
      end
    else
      let (d, rest) := span_int s in
      match NilZero.int_of_string d with
      | Some i => Some (VInt (Z.of_int i), rest)
      | None => None
      end
  end.

Definition read_item (s : string) : option ((string * value) * string) :=
  match read_str s with
  | Some (k, String c r) =>
    if Ascii.eqb c ":" then
      match read_value r with
      | Some (v, rest) => Some ((k, v), rest)
      | None => None
      end
    else None
  | _ => None
  end.

(** The items of an object, from after the opening brace. *)
Fixpoint read_items (fuel : nat) (s : string) : option (list (string * value)) :=
  match fuel with
  | O => None
  | S fuel' =>
    match read_item s with
    | Some (kv, String c rest) =>
      if Ascii.eqb c "," then
        match read_items fuel' rest with
        | Some l => Some (kv :: l)
        | None => None
        end
      else if Ascii.eqb c "}" then
        match rest with EmptyString => Some [kv] | _ => None end
      else None
    | _ => None
    end
  end.

Definition read_object (fuel : nat) (s : string) : option (list (string * value)) :=
  match s with
  | String c r =>
    if Ascii.eqb c "{" then
      match r with
      | String e EmptyString => if Ascii.eqb e "}" then Some [] else read_items fuel r
      | _ => read_items fuel r
      end
    else None
  | EmptyString => None
  end.

Definition item (d : list (string * value)) (k : string) : value :=
  match find (fun kv => String.eqb (fst kv) k) d with
  | Some kv => snd kv
  | None => VNone
  end.

Definition to_str (v : value) : option string :=
  match v with VStr s => Some s | _ => None end.
Definition to_int (v : value) : option Z :=
  match v with VInt z => Some z | _ => None end.
Definition to_str_or_int (v : value) : option str_or_int :=
  match v with VStr s => Some (IsStr s) | VInt z => Some (IsInt z) | VNone => None end.

(** The action built from a dictionary of the nine keys, a missing key
    leaving its field [None]. *)
Definition action_of_items (d : list (string * value)) : JSONAction :=
  mkJSONAction (to_str (item d "action_type")) (to_str_or_int (item d "index"))
    (to_int (item d "x")) (to_int (item d "y")) (to_str (item d "text"))
    (to_str (item d "direction")) (to_str (item d "goal_status"))
    (to_str (item d "app_name")) (to_str (item d "activity_nickname")).

(** The action a serialisation stands for: an action has nine fields. *)
Definition read_back (s : string) : option JSONAction :=
  option_map action_of_items (read_object 9 s).

(** [a] with [app_name] and [text] put in lower case. *)
Definition lowered (a : JSONAction) : JSONAction :=
  mkJSONAction (action_type a) (index a) (x a) (y a) (option_map lower (text a))
    (direction a) (goal_status a) (option_map lower (app_name a))
    (activity_nickname a).

End Wire.

(* ================================================================== *)
(** ** Binary64 numbers that count

    The values [elapsed_time] takes when the interval is 1.0, in the
    terms of the specification of binary64 arithmetic. *)

Module Binary64.
Local Open Scope Z_scope.

(** The float that holds the positive integer [m] of at most 53 bits: its
    mantissa shifted up to 53 bits. *)
Definition float_of_pos (m : positive) : spec_float :=
  let d := Zpos (digits2_pos m) in
  S754_finite false (Pos.shiftl m (Z.to_N (53 - d))) (d - 53).

(** 1.0 and 2^53. *)
Definition one : spec_float := S754_finite false 4503599627370496 (-52).


End Binary64.

(* ================================================================== *)
(** * Properties of the action model *)

Section ActionModel.
Import json_action Spec.

Lemma opt_eqb_true {A} (eqb : A -> A -> bool) :
  (forall a b, eqb a b = true <-> a = b) ->
  forall o p, opt_eqb eqb o p = true <-> o = p.
Proof.
  intros H [a|] [b|]; simpl; try rewrite H; split; intro E;
    try discriminate; try congruence; reflexivity.
Qed.

Lemma str_or_int_eqb_true i j : str_or_int_eqb i j = true <-> i = j.
Proof.
  destruct i as [m|s], j as [n|t]; simpl.
  - rewrite Z.eqb_eq. split; congruence.
  - split; discriminate.
  - split; discriminate.
  - rewrite String.eqb_eq. split; congruence.
Qed.

Lemma matches_ignoring_caseb_true o p :
  matches_ignoring_caseb o p = true <-> matches_ignoring_case o p.
Proof.
  destruct o as [s|], p as [t|]; simpl.
  - apply String.eqb_eq.
  - split; [discriminate | contradiction].
  - split; [discriminate | contradiction].
  - split; trivial.
Qed.

Lemma compared_fields_matchb_true a b :
  compared_fields_matchb a b = true <-> compared_fields_match a b.
Proof.
  unfold compared_fields_matchb, compared_fields_match.
  rewrite !andb_true_iff, !matches_ignoring_caseb_true.
  rewrite !(opt_eqb_true String.eqb String.eqb_eq).
  rewrite !(opt_eqb_true Z.eqb Z.eqb_eq).
  rewrite (opt_eqb_true str_or_int_eqb str_or_int_eqb_true).
  tauto.
Qed.

(** What [_compare_actions] computes: [False] as soon as a compared field
    differs, and otherwise the failed read of [orientation]. *)
Lemma _compare_actions_cases a b :
  _compare_actions a b =
  if compared_fields_matchb a b then Raise (AttributeError "orientation")
  else Ok false.
Proof.
  unfold _compare_actions, compared_fields_matchb, matches_ignoring_caseb.
  destruct a as [ta ia xa ya txa da ga na ka], b as [tb ib xb yb txb db gb nb kb];
    cbn [app_name text action_type index x y direction goal_status].
  assert (N : (match na, nb with
               | Some an, Some bn => String.eqb (lower an) (lower bn)
               | _, _ => opt_eqb String.eqb na nb end)
              = match na, nb with
                | Some s, Some t => String.eqb (lower s) (lower t)
                | None, None => true
                | _, _ => false end)
    by (destruct na, nb; reflexivity).
  assert (T : (match txa, txb with
               | Some an, Some bn => String.eqb (lower an) (lower bn)
               | _, _ => opt_eqb String.eqb txa txb end)
              = match txa, txb with
                | Some s, Some t => String.eqb (lower s) (lower t)
                | None, None => true
                | _, _ => false end)
    by (destruct txa, txb; reflexivity).
  rewrite N, T.
  repeat match goal with
         | |- and_then ?c _ = _ => destruct c; cbn [and_then andb]; try reflexivity
         end.
Qed.

Lemma compared_fields_match_refl a : compared_fields_match a a.
Proof.
  unfold compared_fields_match, matches_ignoring_case.
  destruct (app_name a), (text a); repeat split.
Qed.

(** No comparison of two actions ever yields [True]. *)
Lemma _compare_actions_never_true a b : _compare_actions a b <> Ok true.
Proof.
  rewrite _compare_actions_cases.
  destruct (compared_fields_matchb a b); discriminate.
Qed.

(** C3, as amended: [equals(a, b)] is [False] exactly when one of the
    compared fields fails to match -- [app_name] and [text] ignoring case
    when both are non-null and by null-equality otherwise, kind, index,
    coordinates, direction and status by exact value -- and
    [activity_nickname] is not among the compared fields: whatever two
    nicknames an action is given, the two results are not reported
    unequal. *)
Theorem C3_unequal_iff_compared_field_differs :
  forall a b : JSONAction,
    (__eq__ a (Action b) = Ok false <-> ~ compared_fields_match a b) /\
    (forall n m : option string,
        __eq__ (with_activity_nickname n a) (Action (with_activity_nickname m a))
        <> Ok false).
Proof.
  intros a b. split.
  - simpl. rewrite _compare_actions_cases, <- compared_fields_matchb_true.
    destruct (compared_fields_matchb a b); split; intro H.
    + discriminate H.
    + exfalso. apply H. reflexivity.
    + intro E. discriminate E.
    + reflexivity.
  - intros n m. simpl. rewrite _compare_actions_cases.
    assert (E : compared_fields_matchb (with_activity_nickname n a)
                  (with_activity_nickname m a) = true).
    { apply compared_fields_matchb_true.
      destruct a; apply (compared_fields_match_refl
                           (mkJSONAction _ _ _ _ _ _ _ _ None)). }
    rewrite E. discriminate.
Qed.

(** C3 as stated fails: every field of [JSONAction()] matches itself, yet
    the comparison is not [True]; and two actions that differ only in
    [activity_nickname] are not reported unequal. *)
Lemma C3_counterexample :
  let a := with_activity_nickname (Some "app_drawer") default in
  let b := with_activity_nickname (Some "quick_settings") default in
  (every_field_matches default default /\ __eq__ default (Action default) <> Ok true)
  /\ (~ every_field_matches a b /\ __eq__ a (Action b) <> Ok false
      /\ __ne__ a (Action b) <> Ok true).
Proof.
  cbv zeta. split; [split | split; [ | split ]].
  - repeat split.
  - discriminate.
  - intros (_ & _ & _ & _ & _ & _ & _ & _ & H). discriminate.
  - discriminate.
  - discriminate.
Qed.

(** C4: on the code, reflexivity fails -- comparing any action with itself
    raises [AttributeError] instead of returning [True] -- while the two
    orders of comparison do agree. *)
Theorem C4_equals_raises_on_itself :
  (forall a : JSONAction, __eq__ a (Action a) = Raise (AttributeError "orientation"))
  /\ __eq__ default (Action default) = Raise (AttributeError "orientation")
  /\ (forall a b : JSONAction, __eq__ a (Action b) = __eq__ b (Action a)).
Proof.
  split; [ | split ].
  - intro a. simpl. rewrite _compare_actions_cases.
    destruct (compared_fields_matchb a a) eqn:E; [reflexivity | ].
    pose proof (proj2 (compared_fields_matchb_true a a) (compared_fields_match_refl a)).
    congruence.
  - reflexivity.
  - intros a b. simpl. rewrite !_compare_actions_cases.
    assert (S : forall u v, compared_fields_match u v -> compared_fields_match v u).
    { unfold compared_fields_match, matches_ignoring_case. intros u v.
      destruct (app_name u), (app_name v), (text u), (text v);
        intros (? & ? & ? & ? & ? & ? & ? & ?); repeat split;
        try contradiction; congruence. }
    destruct (compared_fields_matchb a b) eqn:E1, (compared_fields_matchb b a) eqn:E2;
      try reflexivity; exfalso.
    + apply compared_fields_matchb_true, S, compared_fields_matchb_true in E1. congruence.
    + apply compared_fields_matchb_true, S, compared_fields_matchb_true in E2. congruence.
Qed.

(** C5: on the code, the round trip never compares equal. The click on
    index 5 serialises to its two populated fields; whatever a decoder makes
    of the serialisation of an action, comparing it with that action is never
    [True], and the action carrying the very same fields raises. *)
Theorem C5_round_trip_never_compares_equal :
  json_str click_5
  = Ok ("{" ++ encode_str "action_type" ++ ":" ++ encode_str "click" ++ ","
            ++ encode_str "index" ++ ":5}")
  /\ __eq__ click_5 (Action click_5) = Raise (AttributeError "orientation")
  /\ (forall (deserialize : string -> JSONAction) (a : JSONAction),
         obind (json_str a) (fun s => __eq__ (deserialize s) (Action a)) <> Ok true).
Proof.
  split; [vm_compute; reflexivity | split; [reflexivity | ]].
  intros deserialize a. destruct (json_str a) as [s| |]; cbn [obind];
    [ | discriminate | discriminate].
  simpl. apply _compare_actions_never_true.
Qed.

(** C6: on the code, the comparison of [app_name="Chrome"] with
    [app_name="chrome"] finds the names matching and then raises, where the
    claim has it [True]; against [app_name=None] it is [False], as claimed.
    The same holds of [text]. *)
Theorem C6_case_insensitive_match_raises :
  __eq__ (open_app (Some "Chrome")) (Action (open_app (Some "chrome")))
    = Raise (AttributeError "orientation")
  /\ __eq__ (open_app (Some "Chrome")) (Action (open_app None)) = Ok false
  /\ __eq__ (input_text (Some "Hello")) (Action (input_text (Some "hello")))
    = Raise (AttributeError "orientation")
  /\ __eq__ (input_text (Some "Hello")) (Action (input_text None)) = Ok false
  /\ lower "Chrome" = lower "chrome".
Proof. repeat split. Qed.

(** C7, as amended: construction validates nothing. Whatever the kind --
    in the enumeration, outside it, or absent -- and whatever the other
    fields, the action is built and holds the arguments unchanged. *)
Theorem C7_construction_validates_nothing :
  forall (kind : option string) (index : option str_or_int) (x y : option Z)
         (text direction goal_status app_name activity_nickname : option string),
    exists a : JSONAction,
      __init__ kind index x y text direction goal_status app_name activity_nickname
      = Ok a
      /\ __dict__ a
         = [ ("action_type", of_str kind); ("index", of_str_or_int index);
             ("x", of_int x); ("y", of_int y); ("text", of_str text);
             ("direction", of_str direction); ("goal_status", of_str goal_status);
             ("app_name", of_str app_name);
             ("activity_nickname", of_str activity_nickname) ]
      /\ a = mkJSONAction kind index x y text direction goal_status app_name
                          activity_nickname.
Proof.
  intros. eexists. split; [reflexivity | ]. split; reflexivity.
Qed.

(** C7 as stated fails: the kind ["fly"] is not in the enumeration, and the
    construction succeeds. *)
Lemma C7_counterexample :
  is_action_type (Some "fly") = false
  /\ __init__ (Some "fly") None None None None None None None None
     = Ok (mkJSONAction (Some "fly") None None None None None None None None).
Proof. split; reflexivity. Qed.

End ActionModel.

(* ================================================================== *)
(** * Properties of the environment, for every device *)

Section Environment.
Import json_action interface Spec.

Variables UIElement Pixels Forest : Type.
Variable UIElement_eqb : UIElement -> UIElement -> bool.
Variable BaseEnv : Type.
Variable env_reset : BaseEnv -> TimeStep UIElement Pixels Forest * BaseEnv.
Variable env_step : EnvAction -> BaseEnv -> TimeStep UIElement Pixels Forest * BaseEnv.
Variable press_home_button : BaseEnv -> BaseEnv.
Variable send_android_intent :
  string -> string -> list (string * string) -> BaseEnv -> BaseEnv.
Variable get_logical_screen_size : BaseEnv -> (Z * Z) * BaseEnv.
Variable execute_adb_action :
  JSONAction -> list UIElement -> Z * Z -> BaseEnv -> BaseEnv.
Variable sleep_check : float -> option exn.

Local Open Scope list_scope.

Local Abbreviation State := (interface.State UIElement Pixels Forest).
Local Abbreviation Self := (interface.Self UIElement Pixels Forest BaseEnv).
Local Abbreviation Event := (interface.Event UIElement Pixels Forest).
Local Abbreviation reset :=
  (interface.reset UIElement Pixels Forest BaseEnv env_reset press_home_button).
Local Abbreviation _get_state :=
  (interface._get_state UIElement Pixels Forest BaseEnv env_step).
Local Abbreviation while_unstable :=
  (interface.while_unstable UIElement Pixels Forest UIElement_eqb BaseEnv
     env_step sleep_check).
Local Abbreviation _get_stable_state :=
  (interface._get_stable_state UIElement Pixels Forest UIElement_eqb BaseEnv
     env_step sleep_check).
Local Abbreviation execute_action :=
  (interface.execute_action UIElement Pixels Forest UIElement_eqb BaseEnv
     env_step send_android_intent get_logical_screen_size execute_adb_action
     sleep_check).

(** The display notification an answer gives rise to. *)
Local Abbreviation answered message :=
  (SendIntent "broadcast" "com.example.ACTION_UPDATE_OVERLAY"
     [("task_type_string", "Agent answered:"); ("goal_string", message)]).

(** *** The execution router *)

(** C9: an answer with text "42" stores exactly "42" and sends one display
    notification, the only call it makes: the device receives the overlay
    broadcast carrying "42" and nothing else. An answer with empty text
    stores the empty string and makes no call at all. Neither acquires a
    snapshot nor reaches the actuation layer. *)
Theorem C9_answer_sets_cache_and_displays :
  forall (self : Self) (i : option str_or_int) (x y : option Z)
         (d g n k : option string),
    (exists self',
        execute_action (answer (Some "42") i x y d g n k) self = (Ok tt, self')
        /\ interaction_cache self' = Some "42"
        /\ trace self' = trace self ++ [answered "42"]
        /\ _base_env self'
           = send_android_intent "broadcast" "com.example.ACTION_UPDATE_OVERLAY"
               [("task_type_string", "Agent answered:"); ("goal_string", "42")]
               (_base_env self)
        /\ List.length (displayed (trace self')) = S (List.length (displayed (trace self)))
        /\ acquired (trace self') = acquired (trace self)
        /\ actuated (trace self') = actuated (trace self))
    /\ (exists self',
        execute_action (answer (Some "") i x y d g n k) self = (Ok tt, self')
        /\ interaction_cache self' = Some ""
        /\ trace self' = trace self
        /\ _base_env self' = _base_env self).
Proof.
  intros self i x y d g n k. split.
  - eexists. split; [reflexivity | ]. cbn.
    assert (D : forall t (e : Event), displayed (t ++ [e]) = displayed t ++ displayed [e]).
    { induction t as [|[] t IH]; intro e; cbn; try rewrite IH; reflexivity. }
    assert (A : forall t (e : Event), acquired (t ++ [e]) = acquired t ++ acquired [e]).
    { induction t as [|[] t IH]; intro e; cbn; try rewrite IH; reflexivity. }
    assert (X : forall t (e : Event), actuated (t ++ [e]) = actuated t ++ actuated [e]).
    { induction t as [|[] t IH]; intro e; cbn; try rewrite IH; reflexivity. }
    rewrite D, A, X. cbn. rewrite !app_nil_r, length_app. cbn.
    repeat split. lia.
  - eexists. split; [reflexivity | ]. cbn. repeat split.
Qed.

(** C10: an answer whose text is [None] stores [None] in the interaction
    cache -- not the empty string -- and makes no call at all. *)
Theorem C10_answer_without_text_stores_None :
  forall (self : Self) (i : option str_or_int) (x y : option Z)
         (d g n k : option string),
    exists self',
      execute_action (answer None i x y d g n k) self = (Ok tt, self')
      /\ interaction_cache self' = None
      /\ interaction_cache self' <> Some ""
      /\ trace self' = trace self
      /\ _base_env self' = _base_env self.
Proof.
  intros. eexists. split; [reflexivity | ]. cbn. repeat split. discriminate.
Qed.

(** *** Reset *)


(** *** The stabilisation loop *)

Lemma slept_app (t u : list Event) : slept (t ++ u) = slept t ++ slept u.
Proof. induction t as [|[] t IH]; cbn; try rewrite IH; reflexivity. Qed.

Lemma acquired_app (t u : list Event) : acquired (t ++ u) = acquired t ++ acquired u.
Proof. induction t as [|[] t IH]; cbn; try rewrite IH; reflexivity. Qed.

Lemma slept_polls (p : float) (states : list State) :
  slept (polls p states) = repeat p (List.length states).
Proof. unfold polls. induction states as [|s l IH]; cbn; [ | rewrite IH]; reflexivity. Qed.

Lemma acquired_polls (p : float) (states : list State) :
  acquired (polls p states) = states.
Proof. unfold polls. induction states as [|s l IH]; cbn; [ | rewrite IH]; reflexivity. Qed.

Lemma last_cons_default {A} (l : list A) (a d : A) : last (a :: l) d = last l a.
Proof.
  revert a d. induction l as [|b l IH]; intros a d; [reflexivity | ].
  change (last (a :: b :: l) d) with (last (b :: l) d).
  rewrite (IH b d), (IH b a). reflexivity.
Qed.

(** The snapshot returned is the one acquired last: the current one when
    no round followed it, the last round's otherwise. *)
Lemma last_is_acquired_last (earlier states : list State) (current : State) :
  exists before, earlier ++ [current] ++ states = before ++ [last states current].
Proof.
  destruct (exists_last (l := current :: states)) as (before & z & E);
    [discriminate | ].
  exists (earlier ++ before).
  assert (L : last (current :: states) current = z).
  { rewrite E. apply last_last. }
  rewrite last_cons_default in L. cbn [app]. rewrite E, L, app_assoc.
  reflexivity.
Qed.

(** The loop returns once [elapsed_time] is no longer below [timeout]: if
    that is so after [m] more rounds, at most [m] rounds are run, each a
    sleep and a snapshot, and the last snapshot is returned. *)
Lemma while_unstable_returns (threshold : Z) (p timeout : float) :
  sleep_check p = None ->
  forall (m fuel i : nat) (stable_checks : Z) (current : State) (self : Self),
    (elapsed_after (i + m) p <? timeout)%float = false ->
    m < fuel ->
    _prior_state self <> None ->
    exists (result : State) (self' : Self) (states : list State),
      while_unstable fuel threshold p timeout stable_checks
                     (elapsed_after i p) current self = (Ok result, self')
      /\ List.length states <= m
      /\ trace self' = trace self ++ polls p states
      /\ result = last states current
      /\ (forall j, j < List.length states ->
                    (elapsed_after (i + j) p <? timeout)%float = true).
Proof.
  intros Hsleep.
  assert (Stop : forall (current : State) (self : Self) m i,
             exists (result : State) (self' : Self) (states : list State),
               (Ok current, self) = (Ok result, self')
               /\ List.length states <= m
               /\ trace self' = trace self ++ polls p states
               /\ result = last states current
               /\ (forall j, j < List.length states ->
                             (elapsed_after (i + j) p <? timeout)%float = true)).
  { intros current self m i. exists current, self, []. cbn.
    rewrite app_nil_r. repeat split; try lia. }
  induction m as [|m IH]; intros fuel i stable_checks current self Hend Hfuel Hprior;
    (destruct fuel as [|fuel]; [lia | ]); cbn [interface.while_unstable];
    destruct (stable_checks <? threshold)%Z; cbn [andb]; try apply Stop;
    destruct (elapsed_after i p <? timeout)%float eqn:Hlt; try apply Stop.
  - rewrite Nat.add_0_r in Hend. congruence.
  - assert (Next : forall (sc : Z) (self0 : Self),
               trace self0 = trace self ->
               _prior_state self0 <> None ->
               exists (result : State) (self' : Self) (states : list State),
                 bind (interface.time_sleep UIElement Pixels Forest BaseEnv sleep_check p)
                   (fun _ => bind _get_state (fun c =>
                      while_unstable fuel threshold p timeout sc
                        (elapsed_after i p + p)%float c)) self0 = (Ok result, self')
                 /\ List.length states <= S m
                 /\ trace self' = trace self ++ polls p states
                 /\ result = last states current
                 /\ (forall j, j < List.length states ->
                               (elapsed_after (i + j) p <? timeout)%float = true)).
    { intros sc self0 Htrace Hprior0.
      unfold bind at 1, interface.time_sleep. rewrite Hsleep.
      unfold bind at 1, interface._get_state.
      destruct (env_step _get_no_op_action (_base_env (log _ _ _ _ (Sleep p) self0)))
        as [timestep env] eqn:Hstep.
      set (state := _process_timestep _ _ _ timestep).
      set (self1 := log _ _ _ _ (EnvStep _get_no_op_action state) (with_env _ _ _ _ env _)).
      destruct (IH fuel (S i) sc state self1) as (result & self' & states & Hrun & Hlen & Htr & Hres & Hbelow).
      - replace (S i + m) with (i + S m) by lia. exact Hend.
      - lia.
      - exact Hprior0.
      - exists result, self', (state :: states).
        split; [exact Hrun | ]. split; [cbn; lia | ]. split; [ | split ].
        + rewrite Htr. unfold self1. cbn. rewrite Htrace, <- !app_assoc. reflexivity.
        + rewrite last_cons_default. exact Hres.
        + intros [|j] Hj.
          * rewrite Nat.add_0_r. exact Hlt.
          * replace (i + S j) with (S i + j) by lia. apply Hbelow. cbn in Hj. lia. }
    unfold bind at 1, interface.prior_ui_elements.
    destruct (_prior_state self) as [prior|] eqn:Hp; [ | congruence].
    destruct (elements_eqb _ UIElement_eqb (ui_elements prior) (ui_elements current)).
    + destruct (stable_checks + 1 =? threshold)%Z; [apply Stop | ].
      apply Next; [reflexivity | congruence].
    + unfold bind at 1, set_prior_state.
      apply Next; [reflexivity | discriminate].
Qed.


End Environment.

(* ================================================================== *)
(** * Runs on the scripted device *)

Section ScriptedDevice.
Import json_action interface Spec Mock.
Local Open Scope list_scope.

Lemma elements_eqb_nat_true (l m : list nat) :
  elements_eqb nat Nat.eqb l m = true <-> l = m.
Proof.
  revert m. induction l as [|a l IH]; intros [|b m]; cbn;
    try (split; [discriminate | discriminate]); [tauto | ].
  rewrite andb_true_iff, Nat.eqb_eq, IH. split.
  - intros [-> ->]. reflexivity.
  - intro E. inversion E. auto.
Qed.

Lemma elements_eqb_nat_false (l m : list nat) :
  l <> m -> elements_eqb nat Nat.eqb l m = false.
Proof.
  intro N. destruct (elements_eqb nat Nat.eqb l m) eqn:E; [ | reflexivity].
  apply elements_eqb_nat_true in E. contradiction.
Qed.

(** The stabilisation call on a fresh session: two snapshots, the first
    kept as baseline, then the loop. *)
Lemma fresh_session_enters_loop (fuel : nat) (threshold : Z) (p timeout : float)
    (screen : nat -> list nat) :
  Mock._get_stable_state fuel threshold p timeout (session screen)
  = interface.while_unstable nat unit unit Nat.eqb Device step sleep_check
      fuel threshold p timeout 0%Z 0%float (showing (screen 1))
      (mkSelf (mkDevice screen 2) (Some (showing (screen 0))) (Some "")
              [EnvStep _get_no_op_action (showing (screen 0));
               EnvStep _get_no_op_action (showing (screen 1))]).
Proof. reflexivity. Qed.

(** One round of the loop on the scripted device, with the default
    interval and timeout. *)
Lemma scripted_round (fuel : nat) (threshold stable_checks : Z) (elapsed : float)
    (current prior : MState) (screen : nat -> list nat) (c : nat)
    (cache : option string) (t : list (Event nat unit unit)) :
  (stable_checks <? threshold)%Z = true ->
  (elapsed <? 6)%float = true ->
  interface.while_unstable nat unit unit Nat.eqb Device step sleep_check
    (S fuel) threshold 0.5 6 stable_checks elapsed current
    (mkSelf (mkDevice screen c) (Some prior) cache t)
  = if elements_eqb nat Nat.eqb (ui_elements prior) (ui_elements current)
    then
      if (stable_checks + 1 =? threshold)%Z
      then (Ok current, mkSelf (mkDevice screen c) (Some prior) cache t)
      else
        interface.while_unstable nat unit unit Nat.eqb Device step sleep_check
          fuel threshold 0.5 6 (stable_checks + 1)%Z (elapsed + 0.5)%float
          (showing (screen c))
          (mkSelf (mkDevice screen (S c)) (Some prior) cache
             ((t ++ [Sleep 0.5]) ++ [EnvStep _get_no_op_action (showing (screen c))]))
    else
      interface.while_unstable nat unit unit Nat.eqb Device step sleep_check
        fuel threshold 0.5 6 0%Z (elapsed + 0.5)%float
        (showing (screen c))
        (mkSelf (mkDevice screen (S c)) (Some current) cache
           ((t ++ [Sleep 0.5]) ++ [EnvStep _get_no_op_action (showing (screen c))])).
Proof.
  intros Hsc Hel. cbn [interface.while_unstable]. rewrite Hsc, Hel. cbn [andb].
  unfold bind at 1, prior_ui_elements. cbn [_prior_state].
  destruct (elements_eqb nat Nat.eqb (ui_elements prior) (ui_elements current));
    [destruct (stable_checks + 1 =? threshold)%Z | ]; reflexivity.
Qed.

(** C2, as amended: with threshold 3 and no baseline stored, on a device
    whose second sample differs from the third and whose third to sixth
    samples show the same elements A (unstable, unstable, A, A, A, A, then
    anything), the call returns the sixth sample -- the fourth consecutive
    A, the third to match the baseline A -- and acquires nothing after it. *)
Theorem C2_stops_at_fourth_A :
  forall (screen : nat -> list nat) (extra : nat),
    screen 1 <> screen 2 ->
    screen 3 = screen 2 ->
    screen 4 = screen 2 ->
    screen 5 = screen 2 ->
    exists self' : MSelf,
      Mock._get_stable_state (5 + extra) 3 0.5 6 (session screen)
      = (Ok (showing (screen 5)), self')
      /\ cursor (_base_env self') = 6
      /\ acquired (trace self')
         = map showing [screen 0; screen 1; screen 2; screen 3; screen 4; screen 5].
Proof.
  intros screen extra N12 E3 E4 E5.
  pose proof (elements_eqb_nat_false _ _ N12) as F12.
  pose proof (proj2 (elements_eqb_nat_true (screen 2) (screen 2)) eq_refl) as T22.
  rewrite fresh_session_enters_loop.
  change (5 + extra) with (S (S (S (S (S extra))))).
  rewrite scripted_round by reflexivity. cbn [ui_elements showing].
  destruct (elements_eqb nat Nat.eqb (screen 0) (screen 1)) eqn:E01;
    [apply elements_eqb_nat_true in E01; rewrite E01 | ];
    cbn [Z.eqb Z.add Pos.eqb Pos.add Pos.succ];
    (rewrite scripted_round by reflexivity); cbn [ui_elements showing];
    rewrite F12;
    (rewrite scripted_round by reflexivity); cbn [ui_elements showing];
    rewrite E3, T22; cbn [Z.eqb Z.add Pos.eqb Pos.add Pos.succ];
    (rewrite scripted_round by reflexivity); cbn [ui_elements showing];
    rewrite E4, T22; cbn [Z.eqb Z.add Pos.eqb Pos.add Pos.succ];
    (rewrite scripted_round by reflexivity); cbn [ui_elements showing];
    rewrite E5, T22; cbn [Z.eqb Z.add Pos.eqb Pos.add Pos.succ];
    eexists; (split; [reflexivity | ]); split; reflexivity.
Qed.

(** C2 at work: the samples [1], [2], then [10] four times, then [20]. *)
Lemma C2_witness :
  let screen := script [[1]; [2]; [10]; [10]; [10]; [10]; [20]] [20] in
  screen 1 <> screen 2 /\ screen 3 = screen 2 /\ screen 4 = screen 2
  /\ screen 5 = screen 2
  /\ exists self' : MSelf,
      Mock._get_stable_state 5 3 0.5 6 (session screen)
      = (Ok (showing (screen 5)), self')
      /\ cursor (_base_env self') = 6
      /\ acquired (trace self')
         = map showing [screen 0; screen 1; screen 2; screen 3; screen 4; screen 5].
Proof.
  cbv zeta.
  split; [discriminate | ]. split; [reflexivity | ]. split; [reflexivity | ].
  split; [reflexivity | ].
  apply (C2_stops_at_fourth_A
           (script [[1]; [2]; [10]; [10]; [10]; [10]; [20]] [20]) 0);
    [discriminate | reflexivity | reflexivity | reflexivity].
Defined.

(** C2 as stated fails: with only three samples showing A = [10] before
    B = [20], the third A is the second match, the sample B is acquired
    next and resets the count, and the call ends up returning a sample
    that shows B. *)
Lemma C2_counterexample :
  let run := Mock._get_stable_state 13 3 0.5 6
               (session (script [[1]; [2]; [10]; [10]; [10]; [20]] [20])) in
  fst run = Ok (showing [20])
  /\ acquired (trace (snd run))
     = map showing [[1]; [2]; [10]; [10]; [10]; [20]; [20]; [20]; [20]]
  /\ nth 5 (acquired (trace (snd run))) (showing []) = showing [20]
  /\ fst run <> Ok (showing [10]).
Proof.
  cbv zeta. split; [vm_compute; reflexivity | ].
  split; [vm_compute; reflexivity | ].
  split; [vm_compute; reflexivity | ].
  vm_compute. discriminate.
Qed.



(** With [timeout] 1.0 and [poll_interval] 0.1 (the quotient is 10.0) on a
    screen that never settles, ten additions of 0.1 leave [elapsed_time]
    just below 1.0, and the loop runs an eleventh round. *)
Lemma tenth_runs_eleven_rounds :
  let run := Mock._get_stable_state 20 3 tenth 1 (session restless) in
  (0 <? tenth)%float = true
  /\ sleep_check tenth = None
  /\ (1 / tenth =? 10)%float = true
  /\ (elapsed_after 10 tenth <? 1)%float = true
  /\ fst run = Ok (showing [12])
  /\ slept (trace (snd run)) = repeat tenth 11
  /\ List.length (slept (trace (snd run))) = 11.
Proof.
  cbv zeta. repeat split; vm_compute; reflexivity.
Qed.

End ScriptedDevice.

(* ================================================================== *)
(** * More on the action model: inequality, letter case, serialisation *)

Section ActionModelMore.
Import json_action Spec Wire.


Lemma read_chars_encode_char c r :
  read_chars (encode_char c ++ r) = push c (read_chars r).
Proof.
  destruct c as [[] [] [] [] [] [] [] []]; reflexivity.
Qed.

Lemma string_app_assoc (a b c : string) : (a ++ b) ++ c = a ++ (b ++ c).
Proof. induction a as [|x a IH]; cbn; [ | rewrite IH]; reflexivity. Qed.

Lemma read_chars_encode_chars s r :
  read_chars (encode_chars s ++ String dquote r) = Some (s, r).
Proof.
  induction s as [|c s IH]; [reflexivity | ].
  cbn [encode_chars]. rewrite string_app_assoc, read_chars_encode_char, IH.
  reflexivity.
Qed.

Lemma read_str_encode_str s r : read_str (encode_str s ++ r) = Some (s, r).
Proof.
  unfold encode_str, read_str.
  change (String dquote (encode_chars s ++ String dquote "") ++ r)
    with (String dquote ((encode_chars s ++ String dquote "") ++ r)).
  cbv beta iota. rewrite Ascii.eqb_refl, string_app_assoc.
  apply read_chars_encode_chars.
Qed.

Lemma encode_str_starts_with_quote s :
  exists r, encode_str s = String dquote r.
Proof. eexists. reflexivity. Qed.

(** Decimal numerals. *)

Lemma span_int_append d r :
  all_chars is_int_char d = true ->
  match r with String c _ => is_int_char c = false | EmptyString => True end ->
  span_int (d ++ r) = (d, r).
Proof.
  intros Hd Hr. induction d as [|c d IH]; cbn in *.
  - destruct r as [|c r]; [reflexivity | ]. cbn. rewrite Hr. reflexivity.
  - apply andb_true_iff in Hd as [Hc Hd]. rewrite Hc, (IH Hd). reflexivity.
Qed.

Lemma uint_chars d : all_chars is_int_char (NilEmpty.string_of_uint d) = true.
Proof. induction d; cbn; auto. Qed.

Lemma decimal_chars z : all_chars is_int_char (decimal z) = true.
Proof.
  unfold decimal, NilZero.string_of_int, NilZero.string_of_uint.
  destruct (Z.to_int z) as [u|u]; destruct u; cbn; try reflexivity;
    apply uint_chars.
Qed.

Lemma decimal_nonempty z : exists c r, decimal z = String c r /\ Ascii.eqb c dquote = false.
Proof.
  pose proof (decimal_chars z) as H.
  unfold decimal, NilZero.string_of_int, NilZero.string_of_uint in *.
  destruct (Z.to_int z) as [u|u]; destruct u; cbn in *;
    eexists; eexists; (split; [reflexivity | reflexivity]).
Qed.

Lemma int_of_decimal z :
  option_map Z.of_int (NilZero.int_of_string (decimal z)) = Some z.
Proof.
  unfold decimal. rewrite NilZero.isi.
  - cbn. f_equal. apply DecimalZ.of_to.
  - destruct z; cbn; intros [= E]; try discriminate;
      eapply DecimalPos.Unsigned.to_uint_nonnil; eassumption.
  - destruct z; cbn; intros [= E]; try discriminate;
      eapply DecimalPos.Unsigned.to_uint_nonnil; eassumption.
Qed.

Definition ends_value (r : string) : Prop :=
  match r with String c _ => is_int_char c = false | EmptyString => True end.

Lemma read_value_text v r :
  is_not_None v = true -> ends_value r ->
  read_value (value_text v ++ r) = Some (v, r).
Proof.
  intros Hv Hr. destruct v as [|s|z]; [discriminate | | ].
  - cbn [value_text]. unfold encode_str, read_value.
    change (String dquote (encode_chars s ++ String dquote "") ++ r)
      with (String dquote ((encode_chars s ++ String dquote "") ++ r)).
    cbv beta iota. rewrite Ascii.eqb_refl, string_app_assoc.
    change (String dquote "" ++ r) with (String dquote r).
    rewrite read_chars_encode_chars. reflexivity.
  - cbn [value_text].
    destruct (decimal_nonempty z) as (c & t & E & Q).
    unfold read_value. rewrite E at 1.
    change (String c t ++ r) with (String c (t ++ r)).
    cbv beta iota. rewrite Q.
    rewrite (span_int_append _ _ (decimal_chars z) Hr).
    pose proof (int_of_decimal z) as I.
    destruct (NilZero.int_of_string (decimal z)); cbn in I; [ | discriminate].
    congruence.
Qed.

Lemma read_item_text kv r :
  is_not_None (snd kv) = true -> ends_value r ->
  read_item (item_text kv ++ r) = Some (kv, r).
Proof.
  intros Hv Hr. destruct kv as [k v]. unfold item_text, read_item. cbn [fst snd].
  rewrite string_app_assoc, read_str_encode_str. cbn [append].
  rewrite Ascii.eqb_refl.
  rewrite (read_value_text v r Hv Hr). reflexivity.
Qed.

Lemma read_items_text (d : list (string * value)) :
  d <> [] ->
  forallb (fun kv => is_not_None (snd kv)) d = true ->
  forall fuel, List.length d <= fuel ->
    read_items fuel (String.concat "," (map item_text d) ++ "}") = Some d.
Proof.
  induction d as [|kv d IH]; [congruence | ]. intros _ Hd fuel Hf.
  cbn [forallb] in Hd. apply andb_true_iff in Hd as [Hkv Hd].
  destruct fuel as [|fuel]; [cbn in Hf; lia | ]. cbn [List.length] in Hf.
  destruct d as [|kv' d].
  - cbn [map String.concat read_items].
    rewrite (read_item_text kv "}" Hkv) by reflexivity. reflexivity.
  - change (String.concat "," (map item_text (kv :: kv' :: d)))
      with (item_text kv ++ "," ++ String.concat "," (map item_text (kv' :: d))).
    rewrite !string_app_assoc. cbn [read_items].
    rewrite (read_item_text kv _ Hkv) by reflexivity.
    cbn [append]. rewrite Ascii.eqb_refl.
    rewrite IH; [reflexivity | discriminate | exact Hd | lia].
Qed.

Lemma read_object_text (d : list (string * value)) (fuel : nat) :
  forallb (fun kv => is_not_None (snd kv)) d = true ->
  List.length d <= fuel ->
  read_object fuel (object_text d) = Some d.
Proof.
  intros Hd Hf. unfold object_text. destruct d as [|kv d]; [reflexivity | ].
  cbn [append read_object]. rewrite Ascii.eqb_refl.
  pose proof (read_items_text (kv :: d) ltac:(discriminate) Hd fuel Hf) as R.
  remember (String.concat "," (map item_text (kv :: d)) ++ "}") as body eqn:B.
  assert (Q : exists c t, body = String dquote (String c t)).
  { rewrite B. destruct d as [|kv' d]; destruct kv as [k v]; cbn;
      unfold item_text, encode_str; cbn [fst append];
      destruct (encode_chars k ++ _); eexists; eexists; reflexivity. }
  destruct Q as (c & t & ->). exact R.
Qed.

Lemma action_of_non_null (a : JSONAction) :
  action_of_items (filter (fun kv => is_not_None (snd kv)) (__dict__ a)) = a.
Proof.
  destruct a as [t i x y tx d g n k].
  destruct t, i as [[]|], x, y, tx, d, g, n, k; reflexivity.
Qed.

(** What the encoder returns: the text, unless an integer is beyond the
    digit limit. *)
Lemma encode_items_cases (d : list (string * value)) :
  encode_items d
  = if forallb (fun kv => fits (snd kv)) d then Ok (map item_text d)
    else Raise (ValueError digit_limit_message).
Proof.
  induction d as [|[k v] d IH]; [reflexivity | ].
  cbn [encode_items forallb map snd]. rewrite IH.
  unfold encode_item, item_text. cbn [fst snd].
  destruct v as [|s|z]; cbn [encode_value value_text fits obind andb].
  - destruct (forallb _ d); reflexivity.
  - destruct (forallb _ d); reflexivity.
  - unfold encode_int. destruct (Z.abs z <? 10 ^ max_str_digits)%Z; cbn [obind andb];
      [destruct (forallb _ d) | ]; reflexivity.
Qed.

Lemma json_str_cases (a : JSONAction) :
  json_str a
  = if within_digit_limit a
    then Ok (object_text (filter (fun kv => is_not_None (snd kv)) (__dict__ a)))
    else Raise (ValueError digit_limit_message).
Proof.
  unfold json_str, json_dumps, within_digit_limit. rewrite encode_items_cases.
  assert (F : forall d : list (string * value),
             forallb (fun kv => fits (snd kv)) (filter (fun kv => is_not_None (snd kv)) d)
             = forallb (fun kv => fits (snd kv)) d).
  { induction d as [|[k v] d IH]; [reflexivity | ].
    cbn [filter forallb snd]. destruct v; cbn [is_not_None forallb snd fits];
      rewrite IH; reflexivity. }
  rewrite F. destruct (forallb _ (__dict__ a)); reflexivity.
Qed.

Lemma read_back_json_str (a : JSONAction) (s : string) :
  json_str a = Ok s -> read_back s = Some a.
Proof.
  rewrite json_str_cases. destruct (within_digit_limit a); [ | discriminate].
  remember (filter (fun kv => is_not_None (snd kv)) (__dict__ a)) as d eqn:D.
  intros [= E]. subst s d. unfold read_back. rewrite read_object_text.
  - cbn [option_map]. f_equal. apply action_of_non_null.
  - apply forallb_forall. intros kv H. apply filter_In in H. apply H.
  - destruct a as [t i x y tx d g n k].
    destruct t, i as [[]|], x, y, tx, d, g, n, k; cbn; lia.
Qed.

(** X4: on the strings of the model (code points up to U+00FF), a
    serialisation that is returned determines the action: two actions that
    serialise to the same text are the same action, field by field. A null
    field and an empty string, an integer index and the same digits as a
    string, and two different nicknames all serialise differently. *)
Theorem json_str_injective (a b : JSONAction) (s : string) :
  json_str a = Ok s -> json_str b = Ok s -> a = b.
Proof.
  intros Ha Hb. apply read_back_json_str in Ha, Hb. congruence.
Qed.

(** X5: the serialisation is the empty object exactly when no field of the
    action is populated. *)
Theorem json_str_empty_object (a : JSONAction) :
  json_str a = Ok "{}" <-> a = default.
Proof.
  split.
  - intro H. apply read_back_json_str in H.
    change (read_back "{}") with (Some default) in H. congruence.
  - intros ->. reflexivity.
Qed.

Lemma all_chars_app p (a b : string) :
  all_chars p (a ++ b) = all_chars p a && all_chars p b.
Proof. induction a as [|c a IH]; cbn; [ | rewrite IH, andb_assoc]; reflexivity. Qed.

Lemma encode_char_printable c : all_chars printable (encode_char c) = true.
Proof. destruct c as [[] [] [] [] [] [] [] []]; reflexivity. Qed.

Lemma encode_str_printable s : all_chars printable (encode_str s) = true.
Proof.
  unfold encode_str. cbn [all_chars]. rewrite all_chars_app.
  assert (P : all_chars printable (encode_chars s) = true).
  { induction s as [|c s IH]; [reflexivity | ].
    cbn [encode_chars]. rewrite all_chars_app, encode_char_printable, IH. reflexivity. }
  rewrite P. reflexivity.
Qed.

Lemma int_char_printable c : is_int_char c = true -> printable c = true.
Proof.
  destruct c as [[] [] [] [] [] [] [] []]; vm_compute; intro H;
    first [reflexivity | discriminate H].
Qed.

Lemma decimal_printable z : all_chars printable (decimal z) = true.
Proof.
  pose proof (decimal_chars z) as H.
  induction (decimal z) as [|c s IH]; [reflexivity | ].
  cbn in *. apply andb_true_iff in H as [Hc Hs].
  rewrite (int_char_printable c Hc), (IH Hs). reflexivity.
Qed.

Lemma item_text_printable kv : all_chars printable (item_text kv) = true.
Proof.
  destruct kv as [k v]. unfold item_text. cbn [fst snd].
  rewrite !all_chars_app, encode_str_printable.
  destruct v; cbn [value_text]; [reflexivity | | ].
  - rewrite encode_str_printable. reflexivity.
  - rewrite decimal_printable. reflexivity.
Qed.

Lemma object_text_printable d : all_chars printable (object_text d) = true.
Proof.
  unfold object_text. cbn [append all_chars]. rewrite all_chars_app.
  assert (P : all_chars printable (String.concat "," (map item_text d)) = true).
  { induction d as [|kv d IH]; [reflexivity | ].
    destruct d as [|kv' d]; [apply item_text_printable | ].
    change (String.concat "," (map item_text (kv :: kv' :: d)))
      with (item_text kv ++ "," ++ String.concat "," (map item_text (kv' :: d))).
    rewrite !all_chars_app, item_text_printable, IH. reflexivity. }
  rewrite P. reflexivity.
Qed.

(** X6: whatever the strings an action holds, its serialisation is made of
    printable ASCII characters only, [' '] to ['~']: control characters,
    the quote, the backslash and anything beyond ['~'] leave as escapes.
    When no text is returned, it is that an integer field has more digits
    than the limit, and the exception is the [ValueError] of that limit. *)
Theorem json_str_is_printable_ascii (a : JSONAction) :
  match json_str a with
  | Ok s => all_chars printable s = true
  | Raise e => e = ValueError digit_limit_message /\ within_digit_limit a = false
  | OutOfFuel => False
  end.
Proof.
  rewrite json_str_cases. destruct (within_digit_limit a).
  - apply object_text_printable.
  - split; reflexivity.
Qed.

Lemma lower_char_idempotent c : lower_char (lower_char c) = lower_char c.
Proof. destruct c as [[] [] [] [] [] [] [] []]; reflexivity. Qed.

Lemma lower_idempotent s : lower (lower s) = lower s.
Proof.
  induction s as [|c s IH]; [reflexivity | ].
  cbn. rewrite lower_char_idempotent, IH. reflexivity.
Qed.

Lemma matches_ignoring_caseb_lower_l o p :
  matches_ignoring_caseb (option_map lower o) p = matches_ignoring_caseb o p.
Proof. destruct o, p; cbn; try rewrite lower_idempotent; reflexivity. Qed.

Lemma matches_ignoring_caseb_lower_r o p :
  matches_ignoring_caseb o (option_map lower p) = matches_ignoring_caseb o p.
Proof. destruct o, p; cbn; try rewrite lower_idempotent; reflexivity. Qed.

(** X2: putting [app_name] and [text] of either action in lower case
    changes the outcome of neither [==] nor [!=]. *)
Theorem comparison_ignores_letter_case (a b : JSONAction) :
  __eq__ (lowered a) (Action b) = __eq__ a (Action b)
  /\ __eq__ a (Action (lowered b)) = __eq__ a (Action b)
  /\ __ne__ (lowered a) (Action (lowered b)) = __ne__ a (Action b).
Proof.
  assert (L : forall u v, compared_fields_matchb (lowered u) v = compared_fields_matchb u v).
  { intros u v. unfold compared_fields_matchb, lowered.
    cbn [app_name text action_type index x y direction goal_status].
    rewrite !matches_ignoring_caseb_lower_l. reflexivity. }
  assert (R : forall u v, compared_fields_matchb u (lowered v) = compared_fields_matchb u v).
  { intros u v. unfold compared_fields_matchb, lowered.
    cbn [app_name text action_type index x y direction goal_status].
    rewrite !matches_ignoring_caseb_lower_r. reflexivity. }
  unfold __ne__, __eq__. rewrite !_compare_actions_cases, !L, !R. repeat split.
Qed.

Lemma compared_fields_match_trans a b c :
  compared_fields_match a b -> compared_fields_match b c -> compared_fields_match a c.
Proof.
  unfold compared_fields_match, matches_ignoring_case.
  destruct (app_name a), (app_name b), (app_name c), (text a), (text b), (text c);
    intros (? & ? & ? & ? & ? & ? & ? & ?) (? & ? & ? & ? & ? & ? & ? & ?);
    repeat split; try contradiction; congruence.
Qed.

Lemma not_unequal_iff_match a b :
  __eq__ a (Action b) <> Ok false <-> compared_fields_match a b.
Proof.
  cbn [__eq__]. rewrite _compare_actions_cases, <- compared_fields_matchb_true.
  destruct (compared_fields_matchb a b); split; intro H;
    try reflexivity; try discriminate. exfalso. apply H. reflexivity.
Qed.

(** X3: not being reported unequal is transitive: if [a == b] is not
    [False] and [b == c] is not [False], then [a == c] is not [False]. *)
Theorem matching_is_transitive (a b c : JSONAction) :
  __eq__ a (Action b) <> Ok false ->
  __eq__ b (Action c) <> Ok false ->
  __eq__ a (Action c) <> Ok false.
Proof.
  rewrite !not_unequal_iff_match. apply compared_fields_match_trans.
Qed.

(** X1: [a != b] is [True] exactly when a compared field of the two
    actions differs, raises [AttributeError] exactly when all of them match,
    and is never [False]; against an object that is not an action it is
    [True]. *)
Theorem ne_outcomes (a b : JSONAction) (v : value) :
  (__ne__ a (Action b) = Ok true <-> ~ compared_fields_match a b)
  /\ (__ne__ a (Action b) = Raise (AttributeError "orientation")
      <-> compared_fields_match a b)
  /\ __ne__ a (Action b) <> Ok false
  /\ __ne__ a (Other v) = Ok true.
Proof.
  unfold __ne__, __eq__. rewrite _compare_actions_cases, <- compared_fields_matchb_true.
  destruct (compared_fields_matchb a b); cbn; repeat split;
    try discriminate; try congruence; intro H; try discriminate H.
Qed.

End ActionModelMore.

(* ================================================================== *)
(** * More on the environment, for every device *)

Section EnvironmentMore.
Import json_action interface Spec.

Variables UIElement Pixels Forest : Type.
Variable UIElement_eqb : UIElement -> UIElement -> bool.
Variable BaseEnv : Type.
Variable env_reset : BaseEnv -> TimeStep UIElement Pixels Forest * BaseEnv.
Variable env_step : EnvAction -> BaseEnv -> TimeStep UIElement Pixels Forest * BaseEnv.
Variable press_home_button : BaseEnv -> BaseEnv.
Variable send_android_intent :
  string -> string -> list (string * string) -> BaseEnv -> BaseEnv.
Variable get_logical_screen_size : BaseEnv -> (Z * Z) * BaseEnv.
Variable execute_adb_action :
  JSONAction -> list UIElement -> Z * Z -> BaseEnv -> BaseEnv.
Variable sleep_check : float -> option exn.

Local Open Scope list_scope.

Local Abbreviation State := (interface.State UIElement Pixels Forest).
Local Abbreviation Self := (interface.Self UIElement Pixels Forest BaseEnv).
Local Abbreviation Event := (interface.Event UIElement Pixels Forest).
Local Abbreviation _get_state :=
  (interface._get_state UIElement Pixels Forest BaseEnv env_step).
Local Abbreviation time_sleep :=
  (interface.time_sleep UIElement Pixels Forest BaseEnv sleep_check).
Local Abbreviation while_unstable :=
  (interface.while_unstable UIElement Pixels Forest UIElement_eqb BaseEnv
     env_step sleep_check).
Local Abbreviation _get_stable_state :=
  (interface._get_stable_state UIElement Pixels Forest UIElement_eqb BaseEnv
     env_step sleep_check).
Local Abbreviation get_state :=
  (interface.get_state UIElement Pixels Forest UIElement_eqb BaseEnv
     env_step sleep_check).
Local Abbreviation execute_action :=
  (interface.execute_action UIElement Pixels Forest UIElement_eqb BaseEnv
     env_step send_android_intent get_logical_screen_size execute_adb_action
     sleep_check).
Local Abbreviation notice t :=
  (match t with
   | Some (String c s) =>
       [SendIntent "broadcast" "com.example.ACTION_UPDATE_OVERLAY"
          [("task_type_string", "Agent answered:"); ("goal_string", String c s)]]
   | _ => @nil Event
   end).

(** The device once the notification for the text [t], if any, was sent. *)
Local Abbreviation notified t env :=
  (match t with
   | Some (String c s) =>
       send_android_intent "broadcast" "com.example.ACTION_UPDATE_OVERLAY"
         [("task_type_string", "Agent answered:"); ("goal_string", String c s)] env
   | _ => env
   end).

(** The rest of a round, from the sleep on. *)
Local Abbreviation poll fuel threshold p timeout stable_checks elapsed :=
  (bind (time_sleep p) (fun _ => bind _get_state (fun c =>
     while_unstable fuel threshold p timeout stable_checks
                    (elapsed + p)%float c))).

(** One test of the loop condition, spelt out. *)
Lemma while_unstable_round (fuel : nat) (threshold : Z) (p timeout : float)
    (stable_checks : Z) (elapsed : float) (current prior : State) (self : Self) :
  _prior_state self = Some prior ->
  while_unstable (S fuel) threshold p timeout stable_checks elapsed current self
  = if (stable_checks <? threshold)%Z && (elapsed <? timeout)%float
    then
      if elements_eqb UIElement UIElement_eqb (ui_elements prior) (ui_elements current)
      then
        if (stable_checks + 1 =? threshold)%Z then (Ok current, self)
        else poll fuel threshold p timeout (stable_checks + 1)%Z elapsed self
      else
        poll fuel threshold p timeout 0%Z elapsed
             (mkSelf (_base_env self) (Some current) (interaction_cache self)
                     (trace self))
    else (Ok current, self).
Proof.
  intro Hp. cbn [interface.while_unstable].
  destruct ((stable_checks <? threshold)%Z && (elapsed <? timeout)%float);
    [ | reflexivity].
  unfold bind at 1, prior_ui_elements. rewrite Hp.
  destruct (elements_eqb _ _ _ _); [ | reflexivity].
  destruct (stable_checks + 1 =? threshold)%Z; reflexivity.
Qed.

(** The rest of a round when the sleep is accepted. *)
Lemma poll_accepted (fuel : nat) (threshold : Z) (p timeout : float)
    (stable_checks : Z) (elapsed : float) (self : Self) :
  sleep_check p = None ->
  poll fuel threshold p timeout stable_checks elapsed self
  = let step := env_step _get_no_op_action (_base_env self) in
    let state := _process_timestep _ _ _ (fst step) in
    while_unstable fuel threshold p timeout stable_checks (elapsed + p)%float state
      (mkSelf (snd step) (_prior_state self) (interaction_cache self)
              ((trace self ++ [Sleep p]) ++ [EnvStep _get_no_op_action state])).
Proof.
  intro Hs. unfold bind at 1, interface.time_sleep. rewrite Hs.
  unfold bind at 1, interface._get_state. cbn [_base_env log with_env].
  destruct (env_step _get_no_op_action (_base_env self)) as [timestep env].
  reflexivity.
Qed.

(** The rest of a round when the sleep is refused. *)
Lemma poll_refused (fuel : nat) (threshold : Z) (p timeout : float)
    (stable_checks : Z) (elapsed : float) (self : Self) (e : exn) :
  sleep_check p = Some e ->
  poll fuel threshold p timeout stable_checks elapsed self = (Raise e, self).
Proof.
  intro Hs. unfold bind at 1, interface.time_sleep. rewrite Hs. reflexivity.
Qed.

(** The stabilisation call up to its loop. *)
Lemma _get_stable_state_enters_loop (fuel : nat) (threshold : Z) (p timeout : float)
    (self : Self) :
  _get_stable_state fuel threshold p timeout self
  = let first := env_step _get_no_op_action (_base_env self) in
    let s1 := _process_timestep _ _ _ (fst first) in
    match _prior_state self with
    | Some prior =>
        while_unstable fuel threshold p timeout 0%Z 0%float s1
          (mkSelf (snd first) (Some prior) (interaction_cache self)
                  (trace self ++ [EnvStep _get_no_op_action s1]))
    | None =>
        let second := env_step _get_no_op_action (snd first) in
        let s2 := _process_timestep _ _ _ (fst second) in
        while_unstable fuel threshold p timeout 0%Z 0%float s2
          (mkSelf (snd second) (Some s1) (interaction_cache self)
                  ((trace self ++ [EnvStep _get_no_op_action s1])
                     ++ [EnvStep _get_no_op_action s2]))
    end.
Proof.
  unfold interface._get_stable_state, bind at 1.
  destruct (_prior_state self) as [prior|] eqn:Hp.
  - unfold bind at 1, interface._get_state.
    destruct (env_step _get_no_op_action (_base_env self)) as [timestep env].
    unfold log, with_env. cbn. rewrite Hp. reflexivity.
  - unfold bind at 1, interface._get_state.
    destruct (env_step _get_no_op_action (_base_env self)) as [timestep env].
    unfold set_prior_state. cbn [fst snd].
    unfold bind at 1. cbn [_base_env log with_env].
    destruct (env_step _get_no_op_action env) as [timestep' env'].
    reflexivity.
Qed.

(** *** Edge cases of the stabilisation call *)

(** X10: when the threshold is not positive or [0.0 < timeout] does not
    hold (a zero, negative or NaN timeout), the stabilisation call runs no
    round: it never sleeps, whatever the interval, and returns the snapshot
    it acquired last, after two acquisitions when no baseline was stored
    and one otherwise. *)
Theorem stabilisation_without_rounds :
  forall (fuel : nat) (threshold : Z) (p timeout : float) (self : Self),
    ((0 <? threshold)%Z && (0 <? timeout)%float) = false ->
    exists (result : State) (self' : Self),
      _get_stable_state (S fuel) threshold p timeout self = (Ok result, self')
      /\ slept (trace self') = slept (trace self)
      /\ (exists before, acquired (trace self') = before ++ [result])
      /\ List.length (acquired (trace self'))
         = List.length (acquired (trace self))
           + match _prior_state self with None => 2 | Some _ => 1 end
      /\ interaction_cache self' = interaction_cache self.
Proof.
  intros fuel threshold p timeout self H.
  rewrite _get_stable_state_enters_loop. cbv zeta.
  destruct (_prior_state self) as [prior|];
    (erewrite while_unstable_round by reflexivity); rewrite H;
    do 2 eexists; (split; [reflexivity | ]); cbn [trace];
    rewrite ?slept_app, ?acquired_app, ?length_app; cbn;
    rewrite ?app_nil_r; repeat split; try lia.
  - eexists. reflexivity.
  - eexists. reflexivity.
Qed.

(** X13: when [time.sleep] refuses the interval, the threshold is above 1
    and the timeout above zero, the stabilisation call raises the sleep's
    exception at its first round: nothing was slept, a baseline is stored,
    and the cache is untouched. *)
Theorem refused_sleep_is_raised :
  forall (fuel : nat) (threshold : Z) (p timeout : float) (self : Self) (e : exn),
    sleep_check p = Some e ->
    (1 <? threshold)%Z = true ->
    (0 <? timeout)%float = true ->
    exists self' : Self,
      _get_stable_state (S fuel) threshold p timeout self = (Raise e, self')
      /\ slept (trace self') = slept (trace self)
      /\ _prior_state self' <> None
      /\ interaction_cache self' = interaction_cache self.
Proof.
  intros fuel threshold p timeout self e Hs Hth Hto.
  apply Z.ltb_lt in Hth.
  assert (C : ((0 <? threshold)%Z && (0 <? timeout)%float) = true).
  { rewrite Hto, andb_true_r. apply Z.ltb_lt. lia. }
  assert (N : (0 + 1 =? threshold)%Z = false) by (apply Z.eqb_neq; lia).
  rewrite _get_stable_state_enters_loop. cbv zeta.
  destruct (_prior_state self) as [prior|];
    (erewrite while_unstable_round by reflexivity); rewrite C;
    destruct (elements_eqb _ _ _ _); rewrite ?N;
    rewrite (poll_refused _ _ _ _ _ _ _ e Hs);
    eexists; (split; [reflexivity | ]); cbn [trace _prior_state interaction_cache];
    rewrite ?slept_app; cbn; rewrite ?app_nil_r;
    repeat split; discriminate.
Qed.

(** What the loop keeps, however it ends. *)
Lemma while_unstable_keeps (p timeout : float) (threshold : Z) :
  forall (fuel : nat) (stable_checks : Z) (elapsed : float) (current : State)
         (self : Self),
    _prior_state self <> None ->
    interaction_cache
      (snd (while_unstable fuel threshold p timeout stable_checks elapsed current self))
    = interaction_cache self
    /\ _prior_state
         (snd (while_unstable fuel threshold p timeout stable_checks elapsed current self))
       <> None
    /\ (forall e,
           fst (while_unstable fuel threshold p timeout stable_checks elapsed current self)
           = Raise e ->
           sleep_check p = Some e).
Proof.
  induction fuel as [|fuel IH]; intros stable_checks elapsed current self Hp.
  - cbn. repeat split; [exact Hp | discriminate].
  - destruct (_prior_state self) as [prior|] eqn:Eprior; [ | congruence].
    rewrite (while_unstable_round _ _ _ _ _ _ _ prior _ Eprior).
    assert (Stop : interaction_cache (snd (@Ok State current, self)) = interaction_cache self
                   /\ _prior_state (snd (@Ok State current, self)) <> None
                   /\ (forall e, fst (@Ok State current, self) = Raise e ->
                                 sleep_check p = Some e)).
    { cbn. repeat split; [congruence | discriminate]. }
    assert (Poll : forall sc (self0 : Self),
               _prior_state self0 <> None ->
               interaction_cache self0 = interaction_cache self ->
               interaction_cache
                 (snd (poll fuel threshold p timeout sc elapsed self0))
               = interaction_cache self
               /\ _prior_state (snd (poll fuel threshold p timeout sc elapsed self0))
                  <> None
               /\ (forall e,
                      fst (poll fuel threshold p timeout sc elapsed self0) = Raise e ->
                      sleep_check p = Some e)).
    { intros sc self0 Hp0 Hc0. destruct (sleep_check p) as [e|] eqn:Hs.
      - rewrite (poll_refused _ _ _ _ _ _ _ e Hs). cbn.
        repeat split; [exact Hc0 | exact Hp0 | congruence].
      - rewrite (poll_accepted _ _ _ _ _ _ _ Hs). cbv zeta.
        match goal with
        | |- context [while_unstable fuel threshold p timeout sc ?el ?cur ?s] =>
            destruct (IH sc el cur s) as (A & B & C); [exact Hp0 | ]
        end.
        repeat split; [rewrite A; exact Hc0 | exact B | exact C]. }
    destruct ((stable_checks <? threshold)%Z && (elapsed <? timeout)%float);
      [ | exact Stop].
    destruct (elements_eqb _ _ _ _).
    + destruct (stable_checks + 1 =? threshold)%Z; [exact Stop | ].
      apply Poll; [congruence | reflexivity].
    + apply Poll; [discriminate | reflexivity].
Qed.

(** X14: however a stabilisation call ends -- a result, an exception, or
    the step budget of the model -- the interaction cache is what it was, a
    baseline is stored afterwards, and the only exception it can raise is
    the one [time.sleep] raises on the interval. *)
Theorem stabilisation_keeps_cache_and_baseline :
  forall (fuel : nat) (threshold : Z) (p timeout : float) (self : Self),
    interaction_cache (snd (_get_stable_state fuel threshold p timeout self))
    = interaction_cache self
    /\ _prior_state (snd (_get_stable_state fuel threshold p timeout self)) <> None
    /\ (forall e,
           fst (_get_stable_state fuel threshold p timeout self) = Raise e ->
           sleep_check p = Some e).
Proof.
  intros fuel threshold p timeout self.
  rewrite _get_stable_state_enters_loop. cbv zeta.
  destruct (_prior_state self) as [prior|];
    match goal with
    | |- context [while_unstable fuel threshold p timeout ?sc ?el ?cur ?s] =>
        destruct (while_unstable_keeps p timeout threshold fuel sc el cur s)
          as (A & B & C); [discriminate | ]
    end;
    repeat split; try exact B; try exact C; rewrite A; reflexivity.
Qed.

(** *** The default stabilisation *)

(** X15: [get_state(wait_to_stabilize=True)] returns on every device and
    from every session, provided [time.sleep] accepts 0.5: after at most 12
    rounds of 0.5 s and at most 14 snapshots, with the snapshot acquired
    last. *)
Theorem get_state_waits_at_most_twelve_rounds :
  forall (fuel : nat) (self : Self),
    sleep_check 0.5%float = None ->
    12 < fuel ->
    exists (result : State) (self' : Self) (rounds : nat),
      get_state fuel true self = (Ok result, self')
      /\ rounds <= 12
      /\ slept (trace self') = slept (trace self) ++ repeat 0.5%float rounds
      /\ (exists before, acquired (trace self') = before ++ [result])
      /\ List.length (acquired (trace self'))
         <= List.length (acquired (trace self)) + 14.
Proof.
  intros fuel self Hs Hf. unfold interface.get_state.
  rewrite _get_stable_state_enters_loop. cbv zeta.
  assert (Hend : (elapsed_after (0 + 12) 0.5 <? 6)%float = false) by reflexivity.
  destruct (_prior_state self) as [prior|];
    match goal with
    | |- context [while_unstable fuel ?th ?p ?to ?sc ?el ?cur ?s] =>
        destruct (while_unstable_returns UIElement Pixels Forest UIElement_eqb BaseEnv
                    env_step sleep_check th p to Hs 12 fuel 0 sc cur s Hend Hf)
          as (result & self' & states & Hrun & Hlen & Htr & Hres & _);
          [discriminate | ]
    end;
    change (elapsed_after 0 0.5) with 0%float in Hrun;
    exists result, self', (List.length states);
    (split; [exact Hrun | ]); (split; [exact Hlen | ]);
    rewrite Htr; cbn [trace];
    rewrite !slept_app, !acquired_app, slept_polls, acquired_polls, !length_app;
    cbn; rewrite ?app_nil_r; (split; [reflexivity | ]); (split; [ | lia]);
    rewrite Hres, <- ?app_assoc.
  - apply last_is_acquired_last.
  - match goal with
    | |- exists before, ?l ++ [?a] ++ [?b] ++ ?r = _ =>
        destruct (last_is_acquired_last UIElement Pixels Forest (l ++ [a]) r b)
          as (before & E)
    end.
    exists before. rewrite <- E, <- app_assoc. reflexivity.
Qed.

(** *** A screen that has settled *)

Lemma while_unstable_on_steady_screen
    (steady : BaseEnv -> Prop) (E : list UIElement) (k : nat) (p timeout : float) :
  (forall env, steady env ->
     steady (snd (env_step _get_no_op_action env))
     /\ observation_ui_elements _ _ _ (fst (env_step _get_no_op_action env)) = E) ->
  elements_eqb UIElement UIElement_eqb E E = true ->
  sleep_check p = None ->
  (forall j, j < k -> (elapsed_after j p <? timeout)%float = true) ->
  forall (m i fuel : nat) (current prior : State) (self : Self),
    i + S m = k ->
    m < fuel ->
    _prior_state self = Some prior ->
    ui_elements prior = E ->
    ui_elements current = E ->
    steady (_base_env self) ->
    exists (result : State) (self' : Self) (states : list State),
      while_unstable fuel (Z.of_nat k) p timeout (Z.of_nat i) (elapsed_after i p)
                     current self = (Ok result, self')
      /\ ui_elements result = E
      /\ List.length states = m
      /\ trace self' = trace self ++ polls p states
      /\ result = last states current.
Proof.
  intros Hsteady Hrefl Hsleep Hbelow.
  induction m as [|m IH]; intros i fuel current prior self Hk Hfuel Hprior HpE HcE Hst;
    (destruct fuel as [|fuel]; [lia | ]);
    rewrite (while_unstable_round _ _ _ _ _ _ _ prior _ Hprior);
    rewrite (proj2 (Z.ltb_lt (Z.of_nat i) (Z.of_nat k)) ltac:(lia));
    rewrite (Hbelow i ltac:(lia)); cbn [andb];
    rewrite HpE, HcE, Hrefl.
  - rewrite (proj2 (Z.eqb_eq (Z.of_nat i + 1) (Z.of_nat k)) ltac:(lia)).
    exists current, self, []. cbn. rewrite app_nil_r. repeat split. exact HcE.
  - rewrite (proj2 (Z.eqb_neq (Z.of_nat i + 1) (Z.of_nat k)) ltac:(lia)).
    rewrite (poll_accepted _ _ _ _ _ _ _ Hsleep). cbv zeta.
    destruct (Hsteady (_base_env self) Hst) as [Hst' Hobs].
    replace (Z.of_nat i + 1)%Z with (Z.of_nat (S i)) by lia.
    change (elapsed_after i p + p)%float with (elapsed_after (S i) p).
    match goal with
    | |- context [while_unstable fuel _ p timeout _ _ ?cur ?s] =>
        destruct (IH (S i) fuel cur prior s) as (result & self' & states & R & HrE & Hlen & Htr & Hres);
          [lia | lia | exact Hprior | exact HpE | exact Hobs | exact Hst' | ];
          exists result, self', (cur :: states)
    end.
    split; [exact R | ]. split; [exact HrE | ]. split; [cbn; lia | ].
    split.
    + rewrite Htr. cbn [trace]. rewrite <- !app_assoc. reflexivity.
    + rewrite last_cons_default. exact Hres.
Qed.

(** X11: on a device whose every observation shows the same elements [E],
    a session without baseline asked for [k >= 1] stable checks returns a
    snapshot showing [E] after exactly [k + 1] snapshots and [k - 1] sleeps,
    provided [time.sleep] accepts the interval and the accumulated time
    stays below the timeout for those rounds. *)
Theorem steady_screen_stabilises :
  forall (steady : BaseEnv -> Prop) (E : list UIElement) (k fuel : nat)
         (p timeout : float) (self : Self),
    (forall env, steady env ->
       steady (snd (env_step _get_no_op_action env))
       /\ observation_ui_elements _ _ _ (fst (env_step _get_no_op_action env)) = E) ->
    elements_eqb UIElement UIElement_eqb E E = true ->
    steady (_base_env self) ->
    _prior_state self = None ->
    sleep_check p = None ->
    (forall j, j < k -> (elapsed_after j p <? timeout)%float = true) ->
    0 < k ->
    k <= fuel ->
    exists (result : State) (self' : Self),
      _get_stable_state fuel (Z.of_nat k) p timeout self = (Ok result, self')
      /\ ui_elements result = E
      /\ slept (trace self') = slept (trace self) ++ repeat p (k - 1)
      /\ List.length (acquired (trace self'))
         = List.length (acquired (trace self)) + S k
      /\ (exists before, acquired (trace self') = before ++ [result]).
Proof.
  intros steady E k fuel p timeout self Hsteady Hrefl Hst Hprior Hsleep Hbelow Hk Hfuel.
  rewrite _get_stable_state_enters_loop. cbv zeta. rewrite Hprior.
  destruct (Hsteady _ Hst) as [Hst1 Hobs1].
  destruct (Hsteady _ Hst1) as [Hst2 Hobs2].
  match goal with
  | |- context [while_unstable fuel _ p timeout _ _ ?cur ?s] =>
      destruct (while_unstable_on_steady_screen steady E k p timeout Hsteady Hrefl
                  Hsleep Hbelow (k - 1) 0 fuel cur
                  (_process_timestep _ _ _ (fst (env_step _get_no_op_action (_base_env self))))
                  s)
        as (result & self' & states & R & HrE & Hlen & Htr & Hres);
        [lia | lia | reflexivity | exact Hobs1 | exact Hobs2 | exact Hst2 | ]
  end.
  change (elapsed_after 0 p) with 0%float in R. change (Z.of_nat 0) with 0%Z in R.
  exists result, self'. split; [exact R | ]. split; [exact HrE | ].
  rewrite Htr. cbn [trace].
  rewrite !slept_app, !acquired_app, slept_polls, acquired_polls, !length_app, Hlen.
  cbn. rewrite ?app_nil_r. split; [reflexivity | ]. split; [lia | ].
  rewrite Hres, <- !app_assoc.
  match goal with
  | |- exists before, ?l ++ [?a] ++ [?b] ++ ?r = _ =>
      destruct (last_is_acquired_last UIElement Pixels Forest (l ++ [a]) r b)
        as (before & E')
  end.
  exists before. rewrite <- E', <- app_assoc. reflexivity.
Qed.

(** *** The execution router *)

(** X7: an action whose kind is not [answer] (an absent kind included) is
    forwarded: one snapshot is acquired without stabilisation, the logical
    screen size is queried, and the action goes to the actuation layer with
    that snapshot's elements and that size. The cache and the baseline are
    untouched. *)
Theorem execute_action_forwards_to_actuation :
  forall (self : Self) (action : JSONAction),
    action_type action <> Some ANSWER ->
    exists (self' : Self) (state : State) (size : Z * Z),
      execute_action action self = (Ok tt, self')
      /\ state = _process_timestep _ _ _
                   (fst (env_step _get_no_op_action (_base_env self)))
      /\ size = fst (get_logical_screen_size
                       (snd (env_step _get_no_op_action (_base_env self))))
      /\ trace self'
         = trace self ++ [EnvStep _get_no_op_action state; LogicalScreenSize;
                          ExecuteAdbAction action (ui_elements state) size]
      /\ _base_env self'
         = execute_adb_action action (ui_elements state) size
             (snd (get_logical_screen_size
                     (snd (env_step _get_no_op_action (_base_env self)))))
      /\ interaction_cache self' = interaction_cache self
      /\ _prior_state self' = _prior_state self.
Proof.
  intros self action Hkind. unfold interface.execute_action.
  destruct (opt_eqb String.eqb (action_type action) (Some ANSWER)) eqn:Ek.
  - apply (opt_eqb_true String.eqb String.eqb_eq) in Ek. contradiction.
  - unfold interface.get_state, bind at 1, interface._get_state.
    destruct (env_step _get_no_op_action (_base_env self)) as [timestep env].
    unfold bind at 1, interface.logical_screen_size.
    cbn [_base_env log with_env fst snd].
    destruct (get_logical_screen_size env) as [size env'].
    eexists. exists (_process_timestep _ _ _ timestep), size.
    split; [reflexivity | ]. cbn. rewrite <- !app_assoc. repeat split.
Qed.

(** X8: two answers in a row leave the text of the second in the cache,
    whatever the first was, and send one display notification for each
    non-empty text, in order: the device receives the overlay broadcast of
    the first text, then that of the second, and nothing else. *)
Theorem answers_overwrite_the_cache :
  forall (self : Self) (first second : option string)
         (i i' : option str_or_int) (x y x' y' : option Z)
         (d g n k d' g' n' k' : option string),
    exists self1 self2 : Self,
      execute_action (answer first i x y d g n k) self = (Ok tt, self1)
      /\ execute_action (answer second i' x' y' d' g' n' k') self1 = (Ok tt, self2)
      /\ interaction_cache self2 = second
      /\ trace self2 = trace self ++ notice first ++ notice second
      /\ _base_env self1 = notified first (_base_env self)
      /\ _base_env self2 = notified second (notified first (_base_env self))
      /\ _prior_state self2 = _prior_state self.
Proof.
  intros. destruct first as [[|c s]|], second as [[|c' s']|];
    do 2 eexists; (split; [reflexivity | ]); (split; [reflexivity | ]); cbn;
    rewrite <- ?app_assoc, ?app_nil_r; repeat split.
Qed.

(** *** Why the call returned *)

Lemma while_unstable_exit (threshold : Z) (p timeout : float) :
  (0 < threshold)%Z ->
  forall (fuel i : nat) (stable_checks : Z) (current result : State)
         (self self' : Self),
    (stable_checks < threshold)%Z ->
    _prior_state self <> None ->
    while_unstable fuel threshold p timeout stable_checks (elapsed_after i p)
                   current self = (Ok result, self') ->
    exists rounds : nat,
      slept (trace self') = slept (trace self) ++ repeat p rounds
      /\ ((elapsed_after (i + rounds) p <? timeout)%float = false
          \/ exists baseline,
               _prior_state self' = Some baseline
               /\ elements_eqb UIElement UIElement_eqb
                    (ui_elements baseline) (ui_elements result) = true).
Proof.
  intro Hpos. induction fuel as [|fuel IH];
    intros i stable_checks current result self self' Hsc Hp Hrun; [discriminate Hrun | ].
  destruct (_prior_state self) as [prior|] eqn:Eprior; [ | congruence].
  rewrite (while_unstable_round _ _ _ _ _ _ _ prior _ Eprior) in Hrun.
  rewrite (proj2 (Z.ltb_lt _ _) Hsc) in Hrun. cbn [andb] in Hrun.
  assert (Poll : forall sc (self0 : Self),
             (sc < threshold)%Z ->
             _prior_state self0 <> None ->
             slept (trace self0) = slept (trace self) ->
             poll fuel threshold p timeout sc (elapsed_after i p) self0
             = (Ok result, self') ->
             exists rounds : nat,
               slept (trace self') = slept (trace self) ++ repeat p rounds
               /\ ((elapsed_after (i + rounds) p <? timeout)%float = false
                   \/ exists baseline,
                        _prior_state self' = Some baseline
                        /\ elements_eqb UIElement UIElement_eqb
                             (ui_elements baseline) (ui_elements result) = true)).
  { intros sc self0 Hsc0 Hp0 Hsl R.
    destruct (sleep_check p) as [e|] eqn:Hs.
    - rewrite (poll_refused _ _ _ _ _ _ _ e Hs) in R. discriminate R.
    - rewrite (poll_accepted _ _ _ _ _ _ _ Hs) in R. cbv zeta in R.
      change (elapsed_after i p + p)%float with (elapsed_after (S i) p) in R.
      apply IH in R; [ | exact Hsc0 | exact Hp0].
      destruct R as (rounds & Hslept & Hwhy). exists (S rounds). split.
      + rewrite Hslept. cbn [trace]. rewrite !slept_app, Hsl. cbn.
        rewrite app_nil_r, <- app_assoc. reflexivity.
      + replace (i + S rounds) with (S i + rounds) by lia. exact Hwhy. }
  destruct (elapsed_after i p <? timeout)%float eqn:Hlt.
  - destruct (elements_eqb UIElement UIElement_eqb (ui_elements prior)
                (ui_elements current)) eqn:Heq.
    + destruct (stable_checks + 1 =? threshold)%Z eqn:Hth.
      * injection Hrun as <- <-. exists 0. cbn. rewrite app_nil_r.
        split; [reflexivity | ]. right. exists prior. split; assumption.
      * apply Z.eqb_neq in Hth.
        eapply Poll; [ | | | exact Hrun]; [lia | congruence | reflexivity].
    + eapply Poll; [ | | | exact Hrun]; [lia | discriminate | reflexivity].
  - injection Hrun as <- <-. exists 0. cbn. rewrite app_nil_r, Nat.add_0_r.
    split; [reflexivity | ]. left. exact Hlt.
Qed.

(** X12: with a positive threshold, a stabilisation call that returns has
    slept the interval some number of times, and either the time
    accumulated over those rounds is no longer below the timeout, or the
    snapshot returned shows the elements of the stored baseline. *)
Theorem returned_early_means_stable :
  forall (fuel : nat) (threshold : Z) (p timeout : float) (self self' : Self)
         (result : State),
    (0 < threshold)%Z ->
    _get_stable_state fuel threshold p timeout self = (Ok result, self') ->
    exists rounds : nat,
      slept (trace self') = slept (trace self) ++ repeat p rounds
      /\ ((elapsed_after rounds p <? timeout)%float = false
          \/ exists baseline,
               _prior_state self' = Some baseline
               /\ elements_eqb UIElement UIElement_eqb
                    (ui_elements baseline) (ui_elements result) = true).
Proof.
  intros fuel threshold p timeout self self' result Hth Hrun.
  rewrite _get_stable_state_enters_loop in Hrun. cbv zeta in Hrun.
  change 0%float with (elapsed_after 0 p) in Hrun.
  destruct (_prior_state self) as [prior|];
    apply (while_unstable_exit threshold p timeout Hth) in Hrun;
    try exact Hth; try discriminate;
    destruct Hrun as (rounds & Hslept & Hwhy); exists rounds;
    (split; [ | exact Hwhy]); rewrite Hslept; cbn [trace];
    rewrite !slept_app; cbn; rewrite ?app_nil_r; reflexivity.
Qed.

(** X9: [reset] presses home only when asked to, resets the device and
    returns its observation; the cache ends empty, the baseline is kept,
    and no other call is made. *)
Theorem reset_only_resets :
  forall (go_home : bool) (self : Self),
    exists self' : Self,
      interface.reset UIElement Pixels Forest BaseEnv env_reset press_home_button
        go_home self
      = (Ok (_process_timestep _ _ _
               (fst (env_reset (if go_home then press_home_button (_base_env self)
                                else _base_env self)))),
         self')
      /\ _base_env self'
         = snd (env_reset (if go_home then press_home_button (_base_env self)
                           else _base_env self))
      /\ trace self' = trace self ++ (if go_home then [PressHome] else []) ++ [EnvReset]
      /\ interaction_cache self' = Some ""
      /\ _prior_state self' = _prior_state self.
Proof.
  intros [|] self;
    unfold interface.reset, bind, call, ret, set_interaction_cache, log, with_env; cbn;
    match goal with |- context [env_reset ?e] => destruct (env_reset e) end;
    eexists; (split; [reflexivity | ]); cbn; rewrite <- ?app_assoc; repeat split.
Qed.

End EnvironmentMore.

(* ================================================================== *)
(** * The same, run on the scripted device *)

Section ScriptedDeviceMore.
Import json_action interface Spec Mock.
Local Open Scope list_scope.

Lemma matching_is_transitive_witness :
  __eq__ (open_app (Some "Chrome")) (Action (open_app (Some "chrome"))) <> Ok false
  /\ __eq__ (open_app (Some "chrome")) (Action (open_app (Some "CHROME"))) <> Ok false
  /\ __eq__ (open_app (Some "Chrome")) (Action (open_app (Some "CHROME"))) <> Ok false.
Proof.
  split; [discriminate | ]. split; [discriminate | ].
  apply (matching_is_transitive (open_app (Some "Chrome")) (open_app (Some "chrome"))
           (open_app (Some "CHROME"))); discriminate.
Defined.

Lemma json_str_injective_witness :
  let text := ("{" ++ encode_str "action_type" ++ ":" ++ encode_str "click" ++ ","
                   ++ encode_str "index" ++ ":5}")%string in
  json_str click_5 = Ok text
  /\ json_str (with_activity_nickname None click_5) = Ok text
  /\ click_5 = with_activity_nickname None click_5.
Proof.
  cbv zeta. split; [vm_compute; reflexivity | ]. split; [vm_compute; reflexivity | ].
  apply (json_str_injective click_5 (with_activity_nickname None click_5)
           ("{" ++ encode_str "action_type" ++ ":" ++ encode_str "click" ++ ","
                ++ encode_str "index" ++ ":5}")%string);
    vm_compute; reflexivity.
Defined.

Lemma execute_action_forwards_to_actuation_witness :
  action_type click_5 <> Some ANSWER
  /\ exists (self' : MSelf) (state : MState) (size : Z * Z),
      Mock.execute_action click_5 (session restless) = (Ok tt, self')
      /\ state = _process_timestep _ _ _
                   (fst (step _get_no_op_action (_base_env (session restless))))
      /\ size = fst (screen_size
                       (snd (step _get_no_op_action (_base_env (session restless)))))
      /\ trace self'
         = trace (session restless)
           ++ [EnvStep _get_no_op_action state; LogicalScreenSize;
               ExecuteAdbAction click_5 (ui_elements state) size]
      /\ _base_env self'
         = actuate click_5 (ui_elements state) size
             (snd (screen_size
                     (snd (step _get_no_op_action (_base_env (session restless))))))
      /\ interaction_cache self' = interaction_cache (session restless)
      /\ _prior_state self' = _prior_state (session restless).
Proof.
  split; [discriminate | ].
  apply (execute_action_forwards_to_actuation nat unit unit Nat.eqb Device step
           send_intent screen_size actuate sleep_check (session restless) click_5).
  discriminate.
Defined.

Lemma stabilisation_without_rounds_witness :
  ((0 <? 0)%Z && (0 <? 6)%float) = false
  /\ exists (result : MState) (self' : MSelf),
      Mock._get_stable_state 1 0 0.5 6 (session restless) = (Ok result, self')
      /\ slept (trace self') = slept (trace (session restless))
      /\ (exists before, acquired (trace self') = before ++ [result])
      /\ List.length (acquired (trace self'))
         = List.length (acquired (trace (session restless)))
           + match _prior_state (session restless) with None => 2 | Some _ => 1 end
      /\ interaction_cache self' = interaction_cache (session restless).
Proof.
  split; [reflexivity | ].
  apply (stabilisation_without_rounds nat unit unit Nat.eqb Device step sleep_check
           0 0%Z 0.5%float 6%float (session restless)).
  reflexivity.
Defined.

Lemma steady_screen_stabilises_witness :
  let steady := fun d : Device => screen d = (fun _ : nat => [7]) in
  (forall env, steady env ->
     steady (snd (step _get_no_op_action env))
     /\ observation_ui_elements _ _ _ (fst (step _get_no_op_action env)) = [7])
  /\ elements_eqb nat Nat.eqb [7] [7] = true
  /\ steady (_base_env (session (fun _ => [7])))
  /\ _prior_state (session (fun _ => [7])) = None
  /\ sleep_check 0.5 = None
  /\ (forall j, j < 3 -> (elapsed_after j 0.5 <? 6)%float = true)
  /\ 0 < 3
  /\ 3 <= 3
  /\ exists (result : MState) (self' : MSelf),
      Mock._get_stable_state 3 (Z.of_nat 3) 0.5 6 (session (fun _ => [7]))
      = (Ok result, self')
      /\ ui_elements result = [7]
      /\ slept (trace self')
         = slept (trace (session (fun _ => [7]))) ++ repeat 0.5%float (3 - 1)
      /\ List.length (acquired (trace self'))
         = List.length (acquired (trace (session (fun _ => [7])))) + 4
      /\ (exists before, acquired (trace self') = before ++ [result]).
Proof.
  cbv zeta.
  assert (H1 : forall env : Device,
             screen env = (fun _ : nat => [7]) ->
             screen (snd (step _get_no_op_action env)) = (fun _ : nat => [7])
             /\ observation_ui_elements _ _ _ (fst (step _get_no_op_action env)) = [7]).
  { intros [scr c] H. cbn in *. subst scr. split; reflexivity. }
  assert (H2 : forall j, j < 3 -> (elapsed_after j 0.5 <? 6)%float = true).
  { intros j Hj. destruct j as [|[|[|j]]]; [reflexivity | reflexivity | reflexivity | lia]. }
  split; [exact H1 | ]. split; [reflexivity | ]. split; [reflexivity | ].
  split; [reflexivity | ]. split; [reflexivity | ]. split; [exact H2 | ].
  split; [lia | ]. split; [lia | ].
  apply (steady_screen_stabilises nat unit unit Nat.eqb Device step sleep_check
           (fun d : Device => screen d = (fun _ : nat => [7])) [7] 3 3
           0.5%float 6%float (session (fun _ => [7])));
    [exact H1 | reflexivity | reflexivity | reflexivity | reflexivity | exact H2 | lia | lia].
Defined.

Lemma refused_sleep_is_raised_witness :
  sleep_check (-1) = Some (ValueError "sleep length must be non-negative")
  /\ (1 <? 3)%Z = true
  /\ (0 <? 6)%float = true
  /\ exists self' : MSelf,
      Mock._get_stable_state 1 3 (-1) 6 (session restless)
      = (Raise (ValueError "sleep length must be non-negative"), self')
      /\ slept (trace self') = slept (trace (session restless))
      /\ _prior_state self' <> None
      /\ interaction_cache self' = interaction_cache (session restless).
Proof.
  split; [reflexivity | ]. split; [reflexivity | ]. split; [reflexivity | ].
  apply (refused_sleep_is_raised nat unit unit Nat.eqb Device step sleep_check
           0 3%Z (-1)%float 6%float (session restless)
           (ValueError "sleep length must be non-negative"));
    reflexivity.
Defined.

Lemma get_state_waits_at_most_twelve_rounds_witness :
  sleep_check 0.5 = None
  /\ 12 < 13
  /\ exists (result : MState) (self' : MSelf) (rounds : nat),
      Mock.get_state 13 true (session restless) = (Ok result, self')
      /\ rounds <= 12
      /\ slept (trace self')
         = slept (trace (session restless)) ++ repeat 0.5%float rounds
      /\ (exists before, acquired (trace self') = before ++ [result])
      /\ List.length (acquired (trace self'))
         <= List.length (acquired (trace (session restless))) + 14.
Proof.
  split; [reflexivity | ]. split; [lia | ].
  apply (get_state_waits_at_most_twelve_rounds nat unit unit Nat.eqb Device step
           sleep_check 13 (session restless)); [reflexivity | lia].
Defined.

Lemma returned_early_means_stable_witness :
  let self := session (fun _ : nat => [7]) in
  let self' := snd (Mock._get_stable_state 13 3 0.5 6 self) in
  (0 < 3)%Z
  /\ Mock._get_stable_state 13 3 0.5 6 self = (Ok (showing [7]), self')
  /\ exists rounds : nat,
      slept (trace self') = slept (trace self) ++ repeat 0.5%float rounds
      /\ ((elapsed_after rounds 0.5 <? 6)%float = false
          \/ exists baseline,
               _prior_state self' = Some baseline
               /\ elements_eqb nat Nat.eqb (ui_elements baseline)
                    (ui_elements (showing [7])) = true).
Proof.
  cbv zeta. split; [lia | ]. split; [vm_compute; reflexivity | ].
  apply (returned_early_means_stable nat unit unit Nat.eqb Device step sleep_check
           13 3%Z 0.5%float 6%float (session (fun _ : nat => [7]))
           (snd (Mock._get_stable_state 13 3 0.5 6 (session (fun _ : nat => [7]))))
           (showing [7])); [lia | vm_compute; reflexivity].
Defined.

End ScriptedDeviceMore.

(* ================================================================== *)
(** * Adding 1.0 in binary64: the accumulator stalls at 2^53 *)

Section CountingInBinary64.
Import interface Binary64.






Local Open Scope Z_scope.

Lemma float_of_pos_1 : float_of_pos 1 = one.
Proof. reflexivity. Qed.












End CountingInBinary64.

(* ================================================================== *)
(** * A loop that does not end *)

Section NeverSettles.
Import json_action interface Spec Mock.
Local Open Scope list_scope.




End NeverSettles.
